(** * immutos: the build command of [main.go]

    A shallow embedding of the build command of immutos (package [main]):
    the downloader ([downloadPackage], [downloadSelectedPackages]), the
    package database loader ([loadPackageDB]), the per-platform loop of the
    build action, [toOCIImageConfig] and the exit status of [main], together
    with the slim pattern file shipped with the second stage.

    Go values are modelled as follows: a [string] is a [string], a byte
    slice a [list byte], a nil-able slice or map an [option], a pointer to a
    struct an [option] of the record, an [error] a value of [error] below
    (with [None] for [nil]), a [time.Time] an instant in [Z].  Code of other
    packages (the Go library, containerd, urfave/cli, the repository's own
    [source], [resolve], [unpack] and [buildkit] packages) enters through
    the class [Extern]; the file system and the events of a run are the
    state the computations are threaded through.  The workers of an
    [errgroup] are run one after the other. *)

From Stdlib Require Import ZArith Ascii String.
From stdpp Require Import base option list sorting strings gmap fin_maps.

Open Scope string_scope.
Open Scope list_scope.
Open Scope stdpp_scope.

(** ** Errors *)

(** Go errors as trees: a message of its own ([errors.New], or an error
    of a library), [fmt.Errorf("msg: %w", err)], and [errors.Join]. *)
#[warnings="-register-all"]
Inductive error : Type :=
| errorString (msg : string)
| wrapError (msg : string) (err : error)
| joinError (errs : list error).

(** A Go [error] value: [None] is [nil]. *)
Abbreviation goerror := (option error).

Module errors.

(** [errors.Join(errs...)]: nil values are discarded; nil when nothing is
    left, else one [joinError] holding the others in order. *)
Definition Join (errs : list goerror) : goerror :=
  match omap id errs with
  | [] => None
  | es => Some (joinError es)
  end.

End errors.

(** The causes below an error: what a walk down [Unwrap() []error] of the
    joins reaches, in order.  Wrapped and plain errors are causes
    themselves. *)
Fixpoint causes (e : error) : list error :=
  match e with
  | joinError es => concat (map causes es)
  | _ => [e]
  end.

(** ** [toOCIImageConfig] *)

(** [ocispecs.ImageConfig]. *)
Record ImageConfig : Type := {
  User : string;
  ExposedPorts : option (gset string);
  Env : option (list string);
  Entrypoint : option (list string);
  Cmd : option (list string);
  Volumes : option (gset string);
  WorkingDir : string;
  Labels : option (gmap string string);
  StopSignal : string;
  ArgsEscaped : bool
}.

(** The zero value [ocispecs.ImageConfig{}]. *)
Definition ImageConfig_zero : ImageConfig :=
  {| User := ""; ExposedPorts := None; Env := None; Entrypoint := None;
     Cmd := None; Volumes := None; WorkingDir := ""; Labels := None;
     StopSignal := ""; ArgsEscaped := false |}.

(** The recipe ([latestrecipe.Recipe]), as far as [main.go] reads it. *)
Record ContainerConfig : Type := {
  cUser : string;
  cExposedPorts : option (gset string);
  cEnv : option (list string);
  cEntrypoint : option (list string);
  cCmd : option (list string);
  cVolumes : option (gset string);
  cWorkingDir : string;
  cLabels : option (gmap string string);
  cStopSignal : string
}.

Record OptionsConfig : Type := {
  OmitRequired : bool;
  DownloadOnly : bool
}.

Record PackagesConfig : Type := {
  Include : list string;
  Exclude : list string
}.

Section Recipe.

(** [latestrecipe.SourceConfig] is only passed on to [source.NewSource]. *)
Context {SourceConfig : Type}.

Record Recipe : Type := {
  Sources : list SourceConfig;
  Packages : PackagesConfig;
  Options : option OptionsConfig;
  Container : option ContainerConfig
}.

Definition toOCIImageConfig (rx : Recipe) : ImageConfig :=
  match Container rx with
  | None => ImageConfig_zero
  | Some c =>
      {| User := cUser c;
         ExposedPorts := cExposedPorts c;
         Env := cEnv c;
         Entrypoint := cEntrypoint c;
         Cmd := cCmd c;
         Volumes := cVolumes c;
         WorkingDir := cWorkingDir c;
         Labels := cLabels c;
         StopSignal := cStopSignal c;
         ArgsEscaped := false |}
  end.

End Recipe.

Arguments Recipe : clear implicits.

(** ** Strings ([strings]) *)

Module strings.

(** [strings.Split(s, sep)] for a separator of one byte: the pieces of
    [s] between separators, at least one piece. *)
Fixpoint Split (sep : ascii) (s : string) : list string :=
  match s with
  | EmptyString => [""]
  | String c s' =>
      if Ascii.eqb c sep then "" :: Split sep s'
      else match Split sep s' with
           | [] => [String c ""]
           | f :: fs => String c f :: fs
           end
  end.

(** [strings.ReplaceAll(s, old, new)] for [old] and [new] of one byte. *)
Fixpoint ReplaceAll (s : string) (old new : ascii) : string :=
  match s with
  | EmptyString => EmptyString
  | String c s' =>
      String (if Ascii.eqb c old then new else c) (ReplaceAll s' old new)
  end.

End strings.

(** ** Paths ([path/filepath] on Unix) *)

Module filepath.

(** The elements of a path: the non-empty pieces between slashes. *)
Definition elems (s : string) : list string :=
  filter (λ f, f ≠ "") (strings.Split "/" s).

(** [IsAbs]: on Unix, [strings.HasPrefix(path, "/")]. *)
Definition IsAbs (p : string) : bool :=
  match p with
  | String c _ => Ascii.eqb c "/"
  | EmptyString => false
  end.

(** One element of [Clean]'s loop over the elements of the path.  The
    output written so far is kept as a stack, last element first: [.] is
    skipped, [..] backtracks over a real element, is dropped at the root
    and is kept when the path is not rooted. *)
Definition cleanStep (rooted : bool) (out : list string) (c : string)
  : list string :=
  if decide (c = ".") then out
  else if decide (c = "..") then
    match out with
    | top :: out' => if decide (top = "..") then c :: out else out'
    | [] => if rooted then [] else [c]
    end
  else c :: out.

Definition cleanElems (rooted : bool) (cs : list string) : list string :=
  reverse (foldl (cleanStep rooted) [] cs).

(** [Clean]: the shortest path equivalent to [p] by purely lexical
    processing; never the empty string. *)
Definition Clean (p : string) : string :=
  let out := cleanElems (IsAbs p) (elems p) in
  if IsAbs p then "/" +:+ String.concat "/" out
  else match out with
       | [] => "."
       | _ => String.concat "/" out
       end.

(** [Join]: leading empty elements are ignored, the rest is joined with
    slashes and cleaned; the empty string when every element is empty. *)
Fixpoint Join (elem : list string) : string :=
  match elem with
  | [] => ""
  | e :: rest =>
      if decide (e = "") then Join rest
      else Clean (String.concat "/" elem)
  end.

(** [Base]: the last element of the path, after trailing slashes are
    removed; [.] for the empty path, [/] for a path of slashes only. *)
Definition Base (p : string) : string :=
  if decide (p = "") then "."
  else match last (elems p) with
       | Some c => c
       | None => "/"
       end.

End filepath.

(** A name: one non-empty path element. *)
Definition isName (c : string) : Prop := c ≠ "" ∧ strings.Split "/" c = [c].

(** An element that is neither [.] nor [..]. *)
Definition plain (c : string) : Prop := c ≠ "." ∧ c ≠ "..".

(** The characters of a platform specifier of containerd,
    [^[A-Za-z0-9_-]+$]. *)
Definition specifierChar (c : ascii) : bool :=
  let n := nat_of_ascii c in
  (((48 <=? n) && (n <=? 57)) || ((65 <=? n) && (n <=? 90)) ||
   ((97 <=? n) && (n <=? 122)) || (n =? 95) || (n =? 45))%nat.

Fixpoint specifierChars (s : string) : bool :=
  match s with
  | EmptyString => true
  | String c s' => specifierChar c && specifierChars s'
  end.

(** ** The file system *)

(** A file or directory is named by the elements of its absolute path,
    the root by [[]].  There are no symbolic links. *)
Abbreviation key := (list string).

Inductive node : Type :=
| Dir
| File (content : list Byte.byte).

Abbreviation FS := (gmap key node).

(** What the kernel does with one path element at a directory, the
    directory given last element first. *)
Definition walkStep (at_ : list string) (c : string) : list string :=
  if decide (c = ".") then at_
  else if decide (c = "..") then tail at_
  else c :: at_.

(** Walk the elements [cs] starting from the directory [k]. *)
Definition walk (k : key) (cs : list string) : key :=
  reverse (foldl walkStep (reverse k) cs).

(** The file a path names: from the root, or from the working
    directory [cwd] when the path is relative. *)
Definition resolve (cwd : key) (p : string) : key :=
  walk (if filepath.IsAbs p then [] else cwd) (filepath.elems p).

Definition parent (k : key) : key := reverse (tail (reverse k)).

Definition isDir (t : FS) (k : key) : bool :=
  match k with
  | [] => true
  | _ => match t !! k with Some Dir => true | _ => false end
  end.

Definition isFile (t : FS) (k : key) : bool :=
  match t !! k with
  | Some (File _) => true
  | _ => false
  end.

Definition exists_ (t : FS) (k : key) : bool :=
  match k with
  | [] => true
  | _ => bool_decide (is_Some (t !! k))
  end.

(** [k] is the directory [d] or lies below it. *)
Definition within (d k : key) : Prop := d `prefix_of` k.

(** What [os.RemoveAll] leaves: everything that is not within [d]. *)
Definition removeTree (t : FS) (d : key) : FS :=
  filter (λ kn, ¬ within d kn.1) t.

(** ** Values of other packages *)

(** A Go result [(T, error)]. *)
Inductive result (T : Type) : Type :=
| Ok (v : T)
| Err (e : error).
Arguments Ok {T} v.
Arguments Err {T} e.

Definition ofError (err : goerror) : result unit :=
  match err with
  | Some e => Err e
  | None => Ok tt
  end.

(** [fmt.Errorf(msg + ": %w", err)] on the error of a result. *)
Definition wrapResult {T} (msg : string) (r : result T) : result T :=
  match r with
  | Ok v => Ok v
  | Err e => Err (wrapError msg e)
  end.

(** [time.Time] as an instant; the zero value [time.Time{}] is [0]. *)
Abbreviation Time := Z.
Definition time_zero : Time := 0%Z.
Definition time_After (t u : Time) : bool := (u <? t)%Z.

(** [url.URL]: what [String()] prints and the [Path] field. *)
Record URL : Type := {
  url_String : string;
  url_Path : string
}.

(** An HTTP response body as a stream: the bytes it delivers, then the
    end of the stream ([None]) or a read error. *)
Record Response : Type := {
  Body : list Byte.byte;
  BodyErr : goerror
}.

(** [ocispecs.Platform]. *)
Record Platform : Type := {
  OS : string;
  Architecture : string;
  Variant : string
}.

(** [types.Package], as far as [main.go] reads it. *)
Record Package : Type := {
  Name : string;
  Priority : string;
  URLs : list string;
  SHA256 : string
}.

(** [buildkit.PlatformBuildOptions] and [buildkit.BuildOptions]. *)
Record PlatformBuildOptions : Type := {
  pPlatform : Platform;
  BuildContextDir : string;
  DpkgDatabaseArchivePath : string;
  DataArchivePaths : list string
}.

Record BuildOptions : Type := {
  OCIArchivePath : string;
  RecipePath : string;
  SecondStageBinaryPath : string;
  bDownloadOnly : bool;
  ImageConf : ImageConfig;
  Tags : list string;
  SourceDateEpoch : Time;
  PlatformOpts : list PlatformBuildOptions
}.

(** The flags of the build command ([cli.Context]) and whether its
    context is already cancelled. *)
Record Context : Type := {
  flag_filename : string;
  flag_output : string;
  flag_platform : string;
  flag_tag : list string;
  flag_dev : bool;
  flag_cache_dir : string;
  flag_state_dir : string;
  ctx_done : bool
}.

(** The command [app.Run] dispatches to. *)
Inductive command : Type :=
| CmdBuild (c : Context)
| CmdMergeUsr
| CmdProvision (filename : string)
| CmdHelp.

(** The external collaborators of [main.go]: the Go library, the
    libraries it imports and the packages of the repository it calls. *)
Class Extern : Type := {
  SourceConfig : Type;
  Source : Type;
  Component : Type;
  PackageDB : Type;
  Arch : Type;
  (* net/url and net/http, through the caching client; the first
     argument of [http_Do] tells whether the request's context is
     cancelled *)
  url_Parse : string → result URL;
  http_NewRequest : string → goerror;
  http_Do : bool → string → result Response;
  (* crypto/sha256, printed in hexadecimal *)
  sha256_hex : list Byte.byte → string;
  (* util.Shuffle *)
  util_Shuffle : list string → list string;
  (* containerd/platforms and deb822/types/arch *)
  platforms_Parse : string → result Platform;
  arch_Parse : string → result Arch;
  (* internal/source *)
  source_NewSource : SourceConfig → result Source;
  source_Components : Source → Arch → result (list Component);
  component_Packages : Component → result (list Package * Time);
  (* internal/database: ForEach is given by the packages it visits *)
  database_NewPackageDB : PackageDB;
  db_AddAll : PackageDB → list Package → PackageDB;
  db_ForEach : PackageDB → list Package;
  (* internal/resolve, internal/unpack, internal/buildkit *)
  resolve_Resolve : PackageDB → list string → list string → result PackageDB;
  unpack_Unpack : FS → string → list string → result (string * list string) * FS;
  buildkit_StartDaemon : goerror;
  buildkit_Build : FS → BuildOptions → goerror * FS;
  (* os.Open of the recipe file; internal/recipe (recipe.FromYAML on the
     file of that name), internal/util/diskcache, internal/secondstage *)
  os_Open : string → goerror;
  recipe_FromYAML : string → result (Recipe SourceConfig);
  diskcache_NewDiskCache : string → goerror;
  secondstage_MergeUsr : FS → goerror * FS;
  secondstage_Provision : FS → Recipe SourceConfig → goerror * FS;
  (* os *)
  os_Executable : result string;
  env_TMPDIR : string;
  os_nextRandom : list string;
  (* urfave/cli: the parse of the command line *)
  cli_parse : list string → result command
}.

(** ** The state of a run, and computations over it *)

(** What a run does, as far as the claims speak of it: for a platform
    string of the command line, the packages are loaded, the resolver is
    called with a list of names, the downloader and the unpacker are
    called; a file is created; the image is built. *)
Inductive event : Type :=
| EvFetch (platform : string)
| EvResolve (platform : string) (seeds : list string)
| EvDownload (platform : string)
| EvUnpack (platform : string)
| EvCreate (k : key)
| EvBuild (buildOpts : BuildOptions).

(** The working directory of the process, the file system and the
    events so far. *)
Record state : Type := {
  cwd : key;
  fs : FS;
  trace : list event
}.

Definition M (A : Type) : Type := state → A * state.

Definition ret {A} (a : A) : M A := λ s, (a, s).

Definition bind {A B} (c : M A) (k : A → M B) : M B :=
  λ s, let '(a, s') := c s in k a s'.

(** Bind for calls that return an error: the error is returned at once. *)
Definition bindR {A B} (c : M (result A)) (k : A → M (result B))
  : M (result B) :=
  λ s, let '(r, s') := c s in
       match r with
       | Ok a => k a s'
       | Err e => (Err e, s')
       end.

(** [if err != nil { return ..., fmt.Errorf(msg + ": %w", err) }]. *)
Definition wrapping {A} (msg : string) (c : M (result A)) : M (result A) :=
  λ s, let '(r, s') := c s in (wrapResult msg r, s').

Definition setFS (s : state) (t : FS) : state :=
  {| cwd := cwd s; fs := t; trace := trace s |}.

Definition emit (e : event) : M unit :=
  λ s, (tt, {| cwd := cwd s; fs := fs s; trace := trace s ++ [e] |}).

Definition liftFS {A} (f : FS → A * FS) : M A :=
  λ s, let '(a, t) := f (fs s) in (a, setFS s t).

Notation "x <- c ;; k" := (bind c (λ x, k))
  (at level 20, c at level 99, k at level 200, only parsing).
Notation "' pat <- c ;; k" := (bind c (λ x, match x with pat => k end))
  (at level 20, pat pattern, c at level 99, k at level 200, only parsing).
Notation "x <-? c ;; k" := (bindR c (λ x, k))
  (at level 20, c at level 99, k at level 200, only parsing).
Notation "' pat <-? c ;; k" := (bindR c (λ x, match x with pat => k end))
  (at level 20, pat pattern, c at level 99, k at level 200, only parsing).
Notation "c ;; k" := (bind c (λ _, k))
  (at level 100, k at level 200, only parsing, right associativity).
Notation "c ?;; k" := (bindR c (λ _, k))
  (at level 100, k at level 200, only parsing, right associativity).

(** ** Operations of package [os] *)

(** [os.Create(name)]: the file is created, or truncated when it
    exists; it cannot be a directory and its directory must exist. *)
Definition os_Create (name : string) : M (result key) := λ s,
  let k := resolve (cwd s) name in
  if isDir (fs s) k then (Err (errorString "is a directory"), s)
  else if isDir (fs s) (parent k) then
    (Ok k, {| cwd := cwd s; fs := <[k := File []]> (fs s);
              trace := trace s ++ [EvCreate k] |})
  else (Err (errorString "no such file or directory"), s).

(** What [io.Copy] has written to the file [k] when it returns. *)
Definition file_Write (k : key) (bs : list Byte.byte) : M unit := λ s,
  (tt, setFS s (<[k := File bs]> (fs s))).

(** The directories [os.MkdirAll] goes through: [k] and what it lies in,
    root excluded, shortest first. *)
Fixpoint ancestors (k : key) : list key :=
  match k with
  | [] => []
  | c :: k' => [c] :: map (cons c) (ancestors k')
  end.

Definition mkdirs (t : FS) (ks : list key) : FS :=
  foldl (λ t k, if exists_ t k then t else <[k := Dir]> t) t ks.

(** [os.MkdirAll(path, perm)]. *)
Definition os_MkdirAll (path : string) : M goerror := λ s,
  let k := resolve (cwd s) path in
  if existsb (isFile (fs s)) (ancestors k)
  then (Some (errorString "not a directory"), s)
  else (None, setFS s (mkdirs (fs s) (ancestors k))).

(** [os.TempDir()]. *)
Definition os_TempDir `{Extern} : string :=
  if decide (env_TMPDIR = "") then "/tmp" else env_TMPDIR.

(** [joinPath] of [os.MkdirTemp]: no second slash after a directory
    that ends with one. *)
Fixpoint endsWithSlash (s : string) : bool :=
  match s with
  | EmptyString => false
  | String c EmptyString => Ascii.eqb c "/"
  | String _ s' => endsWithSlash s'
  end.

Definition joinPath (dir name : string) : string :=
  if endsWithSlash dir then dir +:+ name else dir +:+ "/" +:+ name.

(** [os.MkdirTemp("", "immutos-*")]: the random strings drawn are tried
    in turn until the name does not exist yet. *)
Fixpoint mkdirTemp (dir : string) (rands : list string)
  : M (result string) :=
  match rands with
  | [] => ret (Err (errorString "file exists"))
  | r :: rands' => λ s,
      let name := joinPath dir "immutos-" +:+ r in
      let k := resolve (cwd s) name in
      if exists_ (fs s) k then mkdirTemp dir rands' s
      else if isDir (fs s) (parent k) then
        (Ok name, setFS s (<[k := Dir]> (fs s)))
      else (Err (errorString "no such file or directory"), s)
  end.

Definition os_MkdirTemp `{Extern} : M (result string) :=
  mkdirTemp os_TempDir os_nextRandom.

(** [os.RemoveAll(path)]; its error is not looked at. *)
Definition os_RemoveAll (path : string) : M unit := λ s,
  (tt, setFS s (removeTree (fs s) (resolve (cwd s) path))).

(** ** The downloader *)

Section Download.
Context `{Extern}.

(** Modelled from the spec: [hashreader.Reader.Verify] of
    [internal/util/hashreader], which is not among the sources.  The
    reader is a streaming SHA-256 verification wrapper over a byte
    source; [Verify] succeeds when the digest of the bytes that went
    through it is the expected one. *)
Definition hashreader_Verify (read : list Byte.byte) (expected : string)
  : goerror :=
  if decide (sha256_hex read = expected) then None
  else Some (errorString "hash mismatch").

Definition downloadPackage (ctx : bool) (downloadDir pkgURL sha256 : string)
  : M (result string) :=
  url <-? wrapping "failed to parse package URL" (ret (url_Parse pkgURL)) ;;
  wrapping "failed to create request"
          (ret (ofError (http_NewRequest (url_String url)))) ?;;
  resp <-? wrapping "failed to download package"
          (ret (http_Do ctx (url_String url))) ;;
  let name := filepath.Join [downloadDir; filepath.Base (url_Path url)] in
  packageFile <-? wrapping "failed to create package file" (os_Create name) ;;
  file_Write packageFile (Body resp) ;;
  wrapping "failed to read package" (ret (ofError (BodyErr resp))) ?;;
  wrapping "failed to verify package"
          (ret (ofError (hashreader_Verify (Body resp) sha256))) ?;;
  ret (Ok name).

(** The loop of a download worker over the URLs of its package, from the
    value [errs] has so far: the joined error that is left, and the path
    of the download that was accepted. *)
Fixpoint tryURLs (ctx : bool) (tempDir sha256 : string) (urls : list string)
  (errs : goerror) : M (goerror * option string) :=
  match urls with
  | [] => ret (errs, None)
  | pkgURL :: urls' =>
      r <- downloadPackage ctx tempDir pkgURL sha256 ;;
      match r with
      | Err err => tryURLs ctx tempDir sha256 urls' (errors.Join [errs; Some err])
      | Ok packagePath => ret (None, Some packagePath)
      end
  end.

(** The function a worker of the group runs for [pkg]. *)
Definition downloadWorker (ctx : bool) (tempDir : string) (pkg : Package)
  : M (goerror * option string) :=
  '(errs, packagePath) <-
     tryURLs ctx tempDir (SHA256 pkg) (util_Shuffle (URLs pkg)) None ;;
  ret (wrapError "failed to download package" <$> errs, packagePath).

(** The group of workers, one package after the other in the order of
    [ForEach]: the paths appended to [packagePaths] and the first error,
    which is what [g.Wait()] returns; the context of the group is
    cancelled from the first error on. *)
Fixpoint downloadGroup (ctx : bool) (tempDir : string) (pkgs : list Package)
  (packagePaths : list string) (gerr : goerror)
  : M (list string * goerror) :=
  match pkgs with
  | [] => ret (packagePaths, gerr)
  | pkg :: pkgs' =>
      '(err, packagePath) <-
         downloadWorker (ctx || bool_decide (is_Some gerr)) tempDir pkg ;;
      downloadGroup ctx tempDir pkgs'
        (packagePaths ++ option_list packagePath)
        (match gerr with Some _ => gerr | None => err end)
  end.

(** [slices.Sort] on strings: the sorted permutation for the byte-wise
    lexicographic order. *)
Definition slices_Sort (l : list string) : list string :=
  merge_sort String.le l.

Definition downloadSelectedPackages (ctx : bool) (tempDir : string)
  (selectedDB : PackageDB) : M (result (list string)) :=
  '(packagePaths, err) <-
     downloadGroup ctx tempDir (db_ForEach selectedDB) [] None ;;
  match err with
  | Some e => ret (Err (wrapError "failed to download packages" e))
  | None => ret (Ok (slices_Sort packagePaths))
  end.

End Download.

(** ** [loadPackageDB] *)

Section Build.
Context `{Extern}.

(** The function run for one source of the recipe. *)
Definition sourceComponents (platform : Platform) (sourceConf : SourceConfig)
  : result (list Component) :=
  match source_NewSource sourceConf with
  | Err e => Err (wrapError "failed to create source" e)
  | Ok s =>
      match arch_Parse (Architecture platform) with
      | Err e => Err (wrapError "failed to parse target architecture" e)
      | Ok targetArch =>
          wrapResult "failed to get components" (source_Components s targetArch)
      end
  end.

(** The first group: the components of every source are appended to
    [components]. *)
Fixpoint collectComponents (platform : Platform)
  (sourceConfs : list SourceConfig) (components : list Component)
  : result (list Component) :=
  match sourceConfs with
  | [] => Ok components
  | sourceConf :: rest =>
      match sourceComponents platform sourceConf with
      | Err e => Err e
      | Ok cs => collectComponents platform rest (components ++ cs)
      end
  end.

(** The second group: the packages of every component are added to the
    database, and [sourceDateEpoch] moves to [lastUpdated] when that is
    later. *)
Fixpoint collectPackages (components : list Component) (packageDB : PackageDB)
  (sourceDateEpoch : Time) : result (PackageDB * Time) :=
  match components with
  | [] => Ok (packageDB, sourceDateEpoch)
  | component :: rest =>
      match component_Packages component with
      | Err e => Err (wrapError "failed to get packages" e)
      | Ok (componentPackages, lastUpdated) =>
          collectPackages rest (db_AddAll packageDB componentPackages)
            (if time_After lastUpdated sourceDateEpoch then lastUpdated
             else sourceDateEpoch)
      end
  end.

Definition loadPackageDB (rx : Recipe SourceConfig) (platform : Platform)
  : result (PackageDB * Time) :=
  match collectComponents platform (Sources rx) [] with
  | Err e => Err (wrapError "failed to get components" e)
  | Ok components =>
      wrapResult "failed to get packages"
        (collectPackages components database_NewPackageDB time_zero)
  end.

(** ** The build command *)

(** [platforms.Format]. *)
Definition platforms_Format (platform : Platform) : string :=
  if decide (OS platform = "") then "unknown"
  else filepath.Join [OS platform; Architecture platform; Variant platform].

Definition omitRequired (rx : Recipe SourceConfig) : bool :=
  match Options rx with
  | Some o => OmitRequired o
  | None => false
  end.

(** The names the resolver is asked for, before the recipe's own. *)
Definition requiredNameVersions (dev : bool) (rx : Recipe SourceConfig)
  (packageDB : PackageDB) : list string :=
  let requiredNameVersions := [] in
  let requiredNameVersions :=
    if negb dev then requiredNameVersions ++ ["immutos"]
    else requiredNameVersions in
  if negb (omitRequired rx) then
    requiredNameVersions ++
      (Name <$> filter (λ pkg, Priority pkg = "required") (db_ForEach packageDB))
  else requiredNameVersions.

(** The second argument of [resolve.Resolve]. *)
Definition resolverSeeds (dev : bool) (rx : Recipe SourceConfig)
  (packageDB : PackageDB) : list string :=
  requiredNameVersions dev rx packageDB ++ Include (Packages rx).

Definition setSourceDateEpoch (o : BuildOptions) (t : Time) : BuildOptions :=
  {| OCIArchivePath := OCIArchivePath o; RecipePath := RecipePath o;
     SecondStageBinaryPath := SecondStageBinaryPath o;
     bDownloadOnly := bDownloadOnly o; ImageConf := ImageConf o;
     Tags := Tags o; SourceDateEpoch := t; PlatformOpts := PlatformOpts o |}.

Definition addPlatformOpts (o : BuildOptions) (p : PlatformBuildOptions)
  : BuildOptions :=
  {| OCIArchivePath := OCIArchivePath o; RecipePath := RecipePath o;
     SecondStageBinaryPath := SecondStageBinaryPath o;
     bDownloadOnly := bDownloadOnly o; ImageConf := ImageConf o;
     Tags := Tags o; SourceDateEpoch := SourceDateEpoch o;
     PlatformOpts := PlatformOpts o ++ [p] |}.

(** The directory of a platform below the temporary directory. *)
Definition platformTempDirOf (tempDir : string) (platform : Platform) : string :=
  filepath.Join [tempDir; strings.ReplaceAll (platforms_Format platform) "/" "-"].

(** The body of the loop over the platforms. *)
Definition buildPlatform (c : Context) (rx : Recipe SourceConfig)
  (tempDir : string) (buildOpts : BuildOptions) (platformStr : string)
  : M (result BuildOptions) :=
  platform <-? wrapping "failed to parse platform"
                 (ret (platforms_Parse platformStr)) ;;
  if decide (OS platform ≠ "linux")
  then ret (Err (errorString ("unsupported OS: " +:+ OS platform)))
  else
    emit (EvFetch platformStr) ;;
    '(packageDB, sourceDateEpoch) <-? ret (loadPackageDB rx platform) ;;
    let buildOpts :=
      if time_After sourceDateEpoch (SourceDateEpoch buildOpts)
      then setSourceDateEpoch buildOpts sourceDateEpoch else buildOpts in
    let seeds := resolverSeeds (flag_dev c) rx packageDB in
    emit (EvResolve platformStr seeds) ;;
    selectedDB <-? ret (resolve_Resolve packageDB seeds
                          (Exclude (Packages rx))) ;;
    let platformTempDir := platformTempDirOf tempDir platform in
    wrapping "failed to create platform temp directory"
      (err <- os_MkdirAll platformTempDir ;; ret (ofError err)) ?;;
    emit (EvDownload platformStr) ;;
    packagePaths <-?
      downloadSelectedPackages (ctx_done c) platformTempDir selectedDB ;;
    emit (EvUnpack platformStr) ;;
    '(dpkgDatabaseArchivePath, dataArchivePaths) <-?
      liftFS (λ fs, unpack_Unpack fs platformTempDir packagePaths) ;;
    ret (Ok (addPlatformOpts buildOpts
               {| pPlatform := platform;
                  BuildContextDir := platformTempDir;
                  DpkgDatabaseArchivePath := dpkgDatabaseArchivePath;
                  DataArchivePaths := dataArchivePaths |})).

Fixpoint buildPlatforms (c : Context) (rx : Recipe SourceConfig)
  (tempDir : string) (buildOpts : BuildOptions) (platformStrs : list string)
  : M (result BuildOptions) :=
  match platformStrs with
  | [] => ret (Ok buildOpts)
  | platformStr :: rest =>
      buildOpts <-? buildPlatform c rx tempDir buildOpts platformStr ;;
      buildPlatforms c rx tempDir buildOpts rest
  end.

Definition downloadOnly (rx : Recipe SourceConfig) : bool :=
  match Options rx with
  | Some o => DownloadOnly o
  | None => false
  end.

(** The build options before the loop; [SourceDateEpoch] and
    [PlatformOpts] have their zero values. *)
Definition initialBuildOpts (c : Context) (rx : Recipe SourceConfig)
  (secondStageBinaryPath : string) : BuildOptions :=
  {| OCIArchivePath := flag_output c;
     RecipePath := flag_filename c;
     SecondStageBinaryPath := secondStageBinaryPath;
     bDownloadOnly := downloadOnly rx;
     ImageConf := toOCIImageConfig rx;
     Tags := flag_tag c;
     SourceDateEpoch := time_zero;
     PlatformOpts := [] |}.

(** The action of the build command from the point where the temporary
    directory exists: the value that reaches [b.Build], or the error. *)
Definition buildOptions (c : Context) (tempDir : string)
  : M (result BuildOptions) :=
  let certsDir := filepath.Join [flag_state_dir c; "certs"] in
  wrapping "failed to create certs directory"
    (err <- os_MkdirAll certsDir ;; ret (ofError err)) ?;;
  wrapping "failed to open recipe file"
    (ret (ofError (os_Open (flag_filename c)))) ?;;
  rx <-? wrapping "failed to read recipe"
           (ret (recipe_FromYAML (flag_filename c))) ;;
  wrapping "failed to start buildkit daemon"
    (ret (ofError buildkit_StartDaemon)) ?;;
  secondStageBinaryPath <-?
    (if flag_dev c
     then wrapping "failed to get executable path" (ret os_Executable)
     else ret (Ok "")) ;;
  buildPlatforms c rx tempDir (initialBuildOpts c rx secondStageBinaryPath)
    (strings.Split "," (flag_platform c)).

Definition buildBody (c : Context) (tempDir : string) : M goerror :=
  r <- buildOptions c tempDir ;;
  match r with
  | Err e => ret (Some e)
  | Ok buildOpts =>
      emit (EvBuild buildOpts) ;;
      err <- liftFS (λ fs, buildkit_Build fs buildOpts) ;;
      ret (wrapError "failed to build OCI image" <$> err)
  end.

(** The [Action] of the build command.  The deferred removal of the
    temporary directory runs on every way out once the directory has been
    made. *)
Definition buildAction (c : Context) : M goerror :=
  match diskcache_NewDiskCache (flag_cache_dir c) with
  | Some e => ret (Some (wrapError "failed to create disk cache" e))
  | None =>
      r <- os_MkdirTemp ;;
      match r with
      | Err e => ret (Some (wrapError "failed to create temporary directory" e))
      | Ok tempDir =>
          err <- buildBody c tempDir ;;
          os_RemoveAll tempDir ;;
          ret err
      end
  end.

(** The [Before] hooks that can fail. *)
Definition initDir (what : string) (dir : string) : M goerror :=
  if decide (dir = "")
  then ret (Some (errorString ("no " +:+ what +:+ " directory specified")))
  else
    err <- os_MkdirAll dir ;;
    ret (wrapError ("failed to create " +:+ what +:+ " directory") <$> err).

(** [app.Run(os.Args)]: the command line is parsed and the command's
    hooks and action are run; the error is the one [Run] returns. *)
Definition app_Run (args : list string) : M goerror :=
  match cli_parse args with
  | Err e => ret (Some e)
  | Ok CmdHelp => ret None
  | Ok (CmdBuild c) =>
      err <- initDir "cache" (flag_cache_dir c) ;;
      match err with
      | Some e => ret (Some e)
      | None =>
          err <- initDir "state" (flag_state_dir c) ;;
          match err with
          | Some e => ret (Some e)
          | None => buildAction c
          end
      end
  | Ok CmdMergeUsr => liftFS secondstage_MergeUsr
  | Ok (CmdProvision filename) =>
      match os_Open filename with
      | Some e => ret (Some (wrapError "failed to open recipe file" e))
      | None =>
          match recipe_FromYAML filename with
          | Err e => ret (Some (wrapError "failed to read recipe" e))
          | Ok rx => liftFS (λ fs, secondstage_Provision fs rx)
          end
      end
  end.

(** [main]: the exit status of the process. *)
Definition main (args : list string) : M Z :=
  err <- app_Run args ;;
  match err with
  | Some _ => ret 1%Z
  | None => ret 0%Z
  end.


End Build.

(** ** The slim pattern file *)

Module slimify.

(** Modelled from the spec: the matching of a glob pattern.  The code that
    reads the pattern file ([internal/secondstage/slimify]) is not among
    the sources, only the file is.  The spec speaks of glob patterns; the
    patterns are those of the dpkg path filters the file is taken from,
    where [*] stands for any run of characters, slashes included, and [?]
    for any one character. *)
Fixpoint glob (pat s : string) : bool :=
  match pat with
  | EmptyString =>
      match s with
      | EmptyString => true
      | _ => false
      end
  | String c pat' =>
      if Ascii.eqb c "*" then
        (fix star (s : string) : bool :=
           glob pat' s ||
           match s with
           | EmptyString => false
           | String _ s' => star s'
           end) s
      else
        match s with
        | EmptyString => false
        | String d s' => (Ascii.eqb c "?" || Ascii.eqb c d) && glob pat' s'
        end
  end.

Inductive pattern : Type :=
| Delete (pat : string)
| Preserve (pat : string).

(** Modelled from the spec: one line of the pattern file.  Empty lines
    and lines that begin with [#] are ignored, a line that begins with [!]
    is a preserve-pattern, any other line a delete pattern. *)
Definition parseLine (line : string) : option pattern :=
  match line with
  | EmptyString => None
  | String c rest =>
      if Ascii.eqb c "#" then None
      else if Ascii.eqb c "!" then Some (Preserve rest)
      else Some (Delete line)
  end.

Definition newline : ascii := "010".

Definition parse (file : string) : list pattern :=
  omap parseLine (strings.Split newline file).

Definition deletes (ps : list pattern) : list string :=
  omap (λ p, match p with Delete pat => Some pat | _ => None end) ps.

Definition preserves (ps : list pattern) : list string :=
  omap (λ p, match p with Preserve pat => Some pat | _ => None end) ps.

Definition matchesAny (pats : list string) (path : string) : bool :=
  existsb (λ pat, glob pat path) pats.

(** Modelled from the spec: a path is removed iff it matches at least one
    delete pattern and no preserve pattern. *)
Definition removed (ps : list pattern) (path : string) : bool :=
  matchesAny (deletes ps) path && negb (matchesAny (preserves ps) path).

(** The file [.slimify] from its line 40 on; the lines before are the
    licence header, all of them comments. *)
Definition slimifyLines : list string := [
  "# https://github.com/tianon/docker-brew-debian/issues/48";
  "";
  "# https://wiki.ubuntu.com/ReducingDiskFootprint#Drop_unnecessary_files";
  "/usr/share/doc/*";
  "/usr/share/info/*";
  "/usr/share/linda/*";
  "/usr/share/lintian/overrides/*";
  "/usr/share/locale/*";
  "/usr/share/man/*";
  "";
  "# https://salsa.debian.org/elmig-guest/localepurge/-/blob/176446028ca719d65993eb01e39d7040fbbcf12d/usr/share/localepurge/gen-dpkg-cfg.pl#L9-20";
  "/usr/share/doc/kde/HTML/*/*";
  "/usr/share/gnome/help/*/*";
  "/usr/share/locale/*";
  "/usr/share/omf/*/*-*.emf";
  "";
  "# Files/directories that will not be removed:";
  "";
  "# https://wiki.ubuntu.com/ReducingDiskFootprint#Drop_unnecessary_files";
  "!/usr/share/doc/*/copyright";
  "";
  "# https://salsa.debian.org/elmig-guest/localepurge/-/blob/176446028ca719d65993eb01e39d7040fbbcf12d/usr/share/localepurge/gen-dpkg-cfg.pl#L22-47";
  "!/usr/share/doc/kde/HTML/C/*";
  "!/usr/share/gnome/help/*/C/*";
  "!/usr/share/locale/all_languages";
  "!/usr/share/locale/currency/*";
  "!/usr/share/locale/l10n/*";
  "!/usr/share/locale/languages";
  "!/usr/share/locale/locale.alias";
  "!/usr/share/omf/*/*-C.emf"
].

Definition slimifyFile : string :=
  String.concat (String newline "") slimifyLines.

End slimify.

(** ** What the claims speak of *)

Section Notions.
Context `{Extern}.

(** [path] is where the body served for [pkgURL] was put, the body was
    read to its end and its digest is [sha256]. *)
Definition verifiedDownload (ctx : bool) (downloadDir pkgURL sha256 : string)
  (path : string) : Prop :=
  ∃ url resp,
    url_Parse pkgURL = Ok url ∧
    http_Do ctx (url_String url) = Ok resp ∧
    BodyErr resp = None ∧
    sha256_hex (Body resp) = sha256 ∧
    path = filepath.Join [downloadDir; filepath.Base (url_Path url)].

(** [p] is a verified download of a URL of one of the packages [pkgs],
    against that package's digest. *)
Definition verifiedFor (tempDir : string) (pkgs : list Package) (p : string)
  : Prop :=
  ∃ pkg pkgURL ctx,
    pkg ∈ pkgs ∧ pkgURL ∈ util_Shuffle (URLs pkg) ∧
    verifiedDownload ctx tempDir pkgURL (SHA256 pkg) p.

End Notions.

Section Attempts.
Context `{Extern}.

(** The URLs [urls] are tried one after the other from the state [s],
    every attempt fails, with the errors [es] in order, and leaves the
    state [s']. *)
Inductive allFail (ctx : bool) (tempDir sha256 : string)
  : list string → state → list error → state → Prop :=
| allFail_nil s : allFail ctx tempDir sha256 [] s [] s
| allFail_cons pkgURL urls s e s1 es s' :
    downloadPackage ctx tempDir pkgURL sha256 s = (Err e, s1) →
    allFail ctx tempDir sha256 urls s1 es s' →
    allFail ctx tempDir sha256 (pkgURL :: urls) s (e :: es) s'.

End Attempts.

(** [errs = errors.Join(errs, err)] for the errors [es] in turn. *)
Definition joinAll (errs : goerror) (es : list error) : goerror :=
  foldl (λ errs e, errors.Join [errs; Some e]) errs es.

Definition causesOf (err : goerror) : list error :=
  from_option causes [] err.

(** ** A small world to run the build in *)

Module Toy.

(** One package, offered by two mirrors; the first serves a wrong body,
    one zero byte, the second the package, here the empty file. *)
Definition mirrorA : string :=
  "http://mirror-a.example.org/debian/pool/main/b/base-files_12.4_amd64.deb".
Definition mirrorB : string :=
  "http://mirror-b.example.org/debian/pool/main/b/base-files_12.4_amd64.deb".
Definition debPath : string := "/debian/pool/main/b/base-files_12.4_amd64.deb".

(** The SHA-256 digests of the empty input and of one zero byte. *)
Definition digestEmpty : string :=
  "e3b0c44298fc1c149afbf4c8996fb92427ae41e4649b934ca495991b7852b855".
Definition digestZero : string :=
  "6e340b9cffb37a989ca544e6bb780a2c78901d3fb33738768511a30617afa01d".

Definition baseFiles : Package :=
  {| Name := "base-files"; Priority := "required";
     URLs := [mirrorA; mirrorB]; SHA256 := digestEmpty |}.

(** A package whose only mirror serves the wrong body. *)
Definition broken : Package :=
  {| Name := "broken"; Priority := "optional";
     URLs := [mirrorA]; SHA256 := digestEmpty |}.

Definition container : ContainerConfig :=
  {| cUser := "nobody"; cExposedPorts := Some {["8080/tcp"]};
     cEnv := Some ["PATH=/usr/bin"]; cEntrypoint := Some ["/bin/sh"];
     cCmd := None; cVolumes := None; cWorkingDir := "/";
     cLabels := Some {["vendor" := "immutos"]}; cStopSignal := "SIGTERM" |}.

Definition recipe : Recipe unit :=
  {| Sources := [tt];
     Packages := {| Include := ["curl"]; Exclude := [] |};
     Options := None;
     Container := Some container |}.

Definition context (platform : string) (dev : bool) : Context :=
  {| flag_filename := "recipe.yaml"; flag_output := "debian-image.tar";
     flag_platform := platform; flag_tag := []; flag_dev := dev;
     flag_cache_dir := "/home/user/.cache/immutos";
     flag_state_dir := "/home/user/.local/state/immutos";
     ctx_done := false |}.

(** The command line: [immutos build -f FILE [-p PLATFORMS]]; anything
    else is refused the way the flag parser refuses it, with an error. *)
Definition parse (args : list string) : result command :=
  match args with
  | [_; "build"; "-f"; _] => Ok (CmdBuild (context "linux/amd64" false))
  | [_; "build"; "-f"; _; "-p"; platform] =>
      Ok (CmdBuild (context platform false))
  | [_; "build"] => Err (errorString "Required flag filename not set")
  | _ => Err (errorString "flag provided but not defined")
  end.

#[export] Instance world : Extern := {|
  SourceConfig := unit;
  Source := unit;
  Component := Time;
  PackageDB := list Package;
  Arch := string;
  url_Parse u :=
    if decide (u = mirrorA ∨ u = mirrorB)
    then Ok {| url_String := u; url_Path := debPath |}
    else Err (errorString "invalid URL");
  http_NewRequest _ := None;
  http_Do ctx u :=
    if ctx then Err (errorString "context canceled")
    else if decide (u = mirrorA)
    then Ok {| Body := [Byte.x00]; BodyErr := None |}
    else if decide (u = mirrorB)
    then Ok {| Body := []; BodyErr := None |}
    else Err (errorString "no such host");
  sha256_hex bs :=
    match bs with
    | [] => digestEmpty
    | [Byte.x00] => digestZero
    | _ => ""
    end;
  util_Shuffle l := l;
  platforms_Parse s :=
    if decide (s = "linux/amd64")
    then Ok {| OS := "linux"; Architecture := "amd64"; Variant := "" |}
    else if decide (s = "linux/arm64")
    then Ok {| OS := "linux"; Architecture := "arm64"; Variant := "" |}
    else if decide (s = "windows/amd64")
    then Ok {| OS := "windows"; Architecture := "amd64"; Variant := "" |}
    else Err (errorString "invalid platform");
  arch_Parse a := Ok a;
  source_NewSource _ := Ok tt;
  source_Components _ a :=
    Ok (if decide (a = "amd64") then [1700000000; 1700086400]%Z
        else [1700000000; 1700172800]%Z);
  component_Packages lastUpdated :=
    Ok (if decide (lastUpdated = 1700000000%Z) then [baseFiles] else [],
        lastUpdated);
  database_NewPackageDB := [];
  db_AddAll db pkgs := db ++ pkgs;
  db_ForEach db := db;
  resolve_Resolve db _ _ := Ok db;
  unpack_Unpack t dir paths := (Ok (dir +:+ "/dpkg.tar", paths), t);
  buildkit_StartDaemon := None;
  buildkit_Build t _ := (None, t);
  os_Open _ := None;
  recipe_FromYAML _ := Ok recipe;
  diskcache_NewDiskCache _ := None;
  secondstage_MergeUsr t := (None, t);
  secondstage_Provision t _ := (None, t);
  os_Executable := Ok "/usr/bin/immutos";
  env_TMPDIR := "";
  os_nextRandom := ["1"; "2"];
  cli_parse := parse
|}.

(** The process starts in [/home/user]; [/tmp] and a directory
    [scratch] of the working directory exist. *)
Definition init : state :=
  {| cwd := ["home"; "user"];
     fs := list_to_map
             [(["tmp"], Dir); (["home"], Dir); (["home"; "user"], Dir);
              (["home"; "user"; "scratch"], Dir)];
     trace := [] |}.

(** The scratch directory of the platform when [TMPDIR] is the relative
    path [scratch], and the state once it has been made. *)
Definition scratchDir : string := "scratch/immutos-1/linux-amd64".
Definition initScratch : state := (os_MkdirAll scratchDir init).2.

End Toy.

(** ** Runs and their events *)

(** From [s] to [s'] the working directory stays, and the events [evs]
    are added, all of them with the property [P]. *)
Definition appends (P : event → Prop) (s s' : state) : Prop :=
  cwd s' = cwd s ∧ ∃ evs, trace s' = trace s ++ evs ∧ Forall P evs.

(** The events of the pipeline for the platform string [platformStr]. *)
Definition concerns (platformStr : string) (e : event) : Prop :=
  match e with
  | EvFetch p | EvResolve p _ | EvDownload p | EvUnpack p => p = platformStr
  | EvCreate _ | EvBuild _ => False
  end.

Section PlatformNotions.
Context `{Extern}.

(** A platform string the build accepts: it parses and its OS is
    [linux]. *)
Definition goodPlatform (platformStr : string) : Prop :=
  ∃ platform, platforms_Parse platformStr = Ok platform ∧ OS platform = "linux".

(** [platforms.Parse] returns components that match the specifier
    grammar of containerd. *)
Definition parsesSpecifiers : Prop :=
  ∀ platformStr platform,
    platforms_Parse platformStr = Ok platform →
    specifierChars (Architecture platform) = true ∧
    specifierChars (Variant platform) = true.

(** What the loop body for [platformStr] may add to the events: events
    of the pipeline for this platform string, which is then an accepted
    one, the resolver being asked for the names [resolverSeeds] gives; and
    files created within the temporary directory. *)
Definition platformEvent (c : Context) (rx : Recipe SourceConfig) (cw : key)
  (tempDir platformStr : string) (e : event) : Prop :=
  match e with
  | EvFetch p | EvDownload p | EvUnpack p =>
      p = platformStr ∧ goodPlatform platformStr
  | EvResolve p seeds =>
      p = platformStr ∧ goodPlatform platformStr ∧
      ∃ packageDB, seeds = resolverSeeds (flag_dev c) rx packageDB
  | EvCreate k =>
      parsesSpecifiers → tempDir ≠ "" → within (resolve cw tempDir) k
  | EvBuild _ => False
  end.

(** The components of a source for a platform, and the [lastUpdated]
    of a component: the date of its Release file. *)
Definition componentsOf (platform : Platform) (sourceConf : SourceConfig)
  : list Component :=
  match sourceComponents platform sourceConf with
  | Ok cs => cs
  | Err _ => []
  end.

Definition lastUpdatedOf (component : Component) : list Time :=
  match component_Packages component with
  | Ok (_, lastUpdated) => [lastUpdated]
  | Err _ => []
  end.

(** The Release dates of all components of all sources of the recipe,
    for the platform a platform string stands for. *)
Definition releaseDates (rx : Recipe SourceConfig) (platformStr : string)
  : list Time :=
  match platforms_Parse platformStr with
  | Ok platform => (Sources rx ≫= componentsOf platform) ≫= lastUpdatedOf
  | Err _ => []
  end.

(** What the options handed to [b.Build] are made from. *)
Definition builtFrom (c : Context) (rx : Recipe SourceConfig)
  (buildOpts : BuildOptions) : Prop :=
  let platformStrs := strings.Split "," (flag_platform c) in
  ImageConf buildOpts = toOCIImageConfig rx ∧
  SourceDateEpoch buildOpts =
    foldr Z.max time_zero (platformStrs ≫= releaseDates rx) ∧
  Forall goodPlatform platformStrs.

(** What the build action may add to the events. *)
Definition buildEvent (c : Context) (cw : key) (tempDir : string) (e : event)
  : Prop :=
  ∃ rx, recipe_FromYAML (flag_filename c) = Ok rx ∧
    match e with
    | EvBuild buildOpts => builtFrom c rx buildOpts
    | _ => ∃ platformStr,
             platformStr ∈ strings.Split "," (flag_platform c) ∧
             platformEvent c rx cw tempDir platformStr e
    end.

End PlatformNotions.

(** An event of a download into the directory [dir]: a file is created,
    within the parent of [dir] at least.  ([dir] itself when the base
    name of the URL's path is a name, its parent when it is [..].) *)
Definition downloadEvent (cw : key) (dir : string) (e : event) : Prop :=
  ∃ k, e = EvCreate k ∧ (dir ≠ "" → within (parent (resolve cw dir)) k).

Arguments filepath.Join : simpl never.
Arguments filepath.Clean : simpl never.
Arguments filepath.Base : simpl never.
Arguments resolve : simpl never.
Arguments os_Create : simpl never.

Section Outcome.
Context `{Extern}.

(** A platform string the build refuses: it does not parse, or its OS
    is not [linux]. *)
Definition rejectedPlatform (platformStr : string) : Prop :=
  match platforms_Parse platformStr with
  | Ok platform => OS platform ≠ "linux"
  | Err _ => True
  end.


(** What a build that succeeds has done: the image was built from
    options made from the recipe, after the resolver was called for
    every platform string. *)
Definition built (c : Context) (evs : list event) : Prop :=
  ∃ rx buildOpts,
    recipe_FromYAML (flag_filename c) = Ok rx ∧
    builtFrom c rx buildOpts ∧
    EvBuild buildOpts ∈ evs ∧
    ∀ platformStr, platformStr ∈ strings.Split "," (flag_platform c) →
      ∃ packageDB,
        EvResolve platformStr (resolverSeeds (flag_dev c) rx packageDB) ∈ evs.

End Outcome.

(** A pattern piece without wildcards. *)
Fixpoint literal (s : string) : bool :=
  match s with
  | EmptyString => true
  | String c s' =>
      negb (Ascii.eqb c "*") && negb (Ascii.eqb c "?") && literal s'
  end.

Section LoadNotions.
Context `{Extern}.



Definition isOk {T} (r : result T) : Prop :=
  match r with
  | Ok _ => True
  | Err _ => False
  end.

End LoadNotions.

(** The events of the pipeline, file creations left out. *)
Definition isCreate (e : event) : Prop :=
  match e with
  | EvCreate _ => True
  | _ => False
  end.

#[global] Instance isCreate_dec e : Decision (isCreate e) :=
  match e with
  | EvCreate _ => left I
  | _ => right (λ x : False, x)
  end.



Section OptionNotions.
Context `{Extern}.



End OptionNotions.


(** ** A second small world *)

(** Two sources, named by strings, whose components carry different
    dates; the cache and the state directory are given on the command
    line.  The rest is as in the first. *)
Module Toy2.

Definition recipe (sources : list string) : Recipe string :=
  {| Sources := sources;
     Packages := {| Include := []; Exclude := [] |};
     Options := None;
     Container := None |}.

Definition context (cacheDir stateDir : string) : Context :=
  {| flag_filename := "recipe.yaml"; flag_output := "debian-image.tar";
     flag_platform := "linux/amd64"; flag_tag := []; flag_dev := false;
     flag_cache_dir := cacheDir; flag_state_dir := stateDir;
     ctx_done := false |}.

(** The command line:
    [immutos build -f FILE --cache-dir DIR --state-dir DIR]. *)
Definition parse (args : list string) : result command :=
  match args with
  | [_; "build"; "-f"; _; "--cache-dir"; cacheDir; "--state-dir"; stateDir] =>
      Ok (CmdBuild (context cacheDir stateDir))
  | _ => Err (errorString "flag provided but not defined")
  end.

#[export] Instance world : Extern := {|
  SourceConfig := string;
  Source := string;
  Component := Time;
  PackageDB := list Package;
  Arch := string;
  url_Parse := @url_Parse Toy.world;
  http_NewRequest := @http_NewRequest Toy.world;
  http_Do := @http_Do Toy.world;
  sha256_hex := @sha256_hex Toy.world;
  util_Shuffle l := l;
  platforms_Parse := @platforms_Parse Toy.world;
  arch_Parse a := Ok a;
  source_NewSource sc :=
    if decide (sc = "") then Err (errorString "no source URL") else Ok sc;
  source_Components src _ :=
    Ok (if decide (src = "debian") then [1700000000]%Z
        else [1700172800; 1700086400]%Z);
  component_Packages lastUpdated :=
    Ok (if decide (lastUpdated = 1700000000%Z) then [Toy.baseFiles] else [],
        lastUpdated);
  database_NewPackageDB := [];
  db_AddAll db pkgs := db ++ pkgs;
  db_ForEach db := db;
  resolve_Resolve db _ _ := Ok db;
  unpack_Unpack t dir paths := (Ok (dir +:+ "/dpkg.tar", paths), t);
  buildkit_StartDaemon := None;
  buildkit_Build t _ := (None, t);
  os_Open _ := None;
  recipe_FromYAML _ := Ok (recipe ["debian"; "security"]);
  diskcache_NewDiskCache _ := None;
  secondstage_MergeUsr t := (None, t);
  secondstage_Provision t _ := (None, t);
  os_Executable := Ok "/usr/bin/immutos";
  env_TMPDIR := "";
  os_nextRandom := ["1"; "2"];
  cli_parse := parse
|}.

End Toy2.

(** * Properties *)

(** ** Strings and paths *)

Section Paths.
Import strings filepath.

Lemma Split_cons sep s : ∃ f fs, Split sep s = f :: fs.
Proof.
  induction s as [|c s [f [fs IH]]]; simpl; [by eauto|].
  destruct (Ascii.eqb c sep); rewrite ?IH; eauto.
Qed.

Lemma Split_app_sep sep a b :
  Split sep (a +:+ String sep b) = Split sep a ++ Split sep b.
Proof.
  induction a as [|c a IH]; simpl.
  - by rewrite Ascii.eqb_refl.
  - change (String c a +:+ String sep b) with (String c (a +:+ String sep b)).
    simpl. rewrite IH. destruct (Ascii.eqb c sep); [done|].
    by destruct (Split_cons sep a) as (f & fs & ->).
Qed.

(** A piece of a split holds no separator: splitting it again gives the
    piece. *)
Lemma Split_piece sep s f : f ∈ Split sep s → Split sep f = [f].
Proof.
  revert f. induction s as [|c s IH]; simpl; intros f Hf.
  - apply list_elem_of_singleton in Hf as ->. done.
  - destruct (Ascii.eqb c sep) eqn:Hc.
    + apply elem_of_cons in Hf as [->|Hf]; [done|by apply IH].
    + destruct (Split_cons sep s) as (g & gs & Hs). rewrite Hs in Hf, IH.
      apply elem_of_cons in Hf as [->|Hf].
      * simpl. rewrite Hc, (IH g); [done|]. by left.
      * apply IH. by right.
Qed.


Lemma elems_name c : isName c → elems c = [c].
Proof.
  intros [Hne Hc]. unfold elems. rewrite Hc.
  by rewrite filter_cons_True.
Qed.

Lemma elems_isName p c : c ∈ elems p → isName c.
Proof.
  unfold elems. intros [Hne Hc]%list_elem_of_filter. split; [done|].
  by eapply Split_piece.
Qed.

Lemma elems_app_slash a b : elems (a +:+ "/" +:+ b) = elems a ++ elems b.
Proof.
  unfold elems. change ("/" +:+ b) with (String "/" b).
  by rewrite Split_app_sep, filter_app.
Qed.

Lemma elems_empty : elems "" = [].
Proof. done. Qed.

Lemma concat_cons2 sep x y l :
  String.concat sep (x :: y :: l) = x +:+ sep +:+ String.concat sep (y :: l).
Proof. done. Qed.

Lemma elems_concat cs : elems (String.concat "/" cs) = cs ≫= elems.
Proof.
  induction cs as [|x [|y l] IH]; [done| |].
  - simpl. by rewrite app_nil_r.
  - rewrite concat_cons2, elems_app_slash, IH. done.
Qed.

Lemma elems_concat_names cs : Forall isName cs → elems (String.concat "/" cs) = cs.
Proof.
  intros Hcs. rewrite elems_concat.
  induction Hcs as [|c cs Hc _ IH]; [done|].
  by rewrite bind_cons, IH, elems_name.
Qed.


Lemma cleanStep_Forall (P : string → Prop) rooted out c :
  Forall P out → P c → Forall P (cleanStep rooted out c).
Proof.
  intros Hout Hc. unfold cleanStep.
  repeat case_decide; try done; try by constructor.
  - destruct out as [|top out']; [destruct rooted; by repeat constructor|].
    case_decide; [by constructor|]. by inversion Hout.
Qed.

Lemma cleanFold_Forall (P : string → Prop) rooted cs out :
  Forall P out → Forall P cs → Forall P (foldl (cleanStep rooted) out cs).
Proof.
  intros Hout Hcs. revert out Hout.
  induction Hcs as [|c cs Hc _ IH]; intros out Hout; [done|].
  simpl. apply IH. by apply cleanStep_Forall.
Qed.

Lemma cleanElems_Forall (P : string → Prop) rooted cs :
  Forall P cs → Forall P (cleanElems rooted cs).
Proof.
  intros Hcs. unfold cleanElems. apply Forall_reverse.
  by apply cleanFold_Forall.
Qed.


Lemma cleanFold_plain rooted cs out :
  Forall plain cs → foldl (cleanStep rooted) out cs = reverse cs ++ out.
Proof.
  intros Hcs. revert out.
  induction Hcs as [|c cs [Hc1 Hc2] _ IH]; intros out; [done|].
  simpl. rewrite IH. unfold cleanStep.
  rewrite !decide_False by done. by rewrite reverse_cons, <-app_assoc.
Qed.

Lemma cleanElems_plain rooted cs : Forall plain cs → cleanElems rooted cs = cs.
Proof.
  intros Hcs. unfold cleanElems.
  by rewrite cleanFold_plain, app_nil_r, reverse_involutive.
Qed.

Lemma IsAbs_name c : isName c → IsAbs c = false.
Proof.
  intros [Hne Hc]. destruct c as [|a c]; [done|]. simpl in *.
  destruct (Ascii.eqb a "/"); [|done].
  by destruct (Split_cons "/" c) as (f & fs & Hs); rewrite ?Hs in Hc.
Qed.

Lemma IsAbs_app a b : a ≠ "" → IsAbs (a +:+ b) = IsAbs a.
Proof. by destruct a. Qed.

Lemma IsAbs_concat_names c cs :
  isName c → IsAbs (String.concat "/" (c :: cs)) = false.
Proof.
  intros Hc. destruct cs as [|y l]; [by apply IsAbs_name|].
  rewrite concat_cons2, IsAbs_app; [by apply IsAbs_name|]. apply Hc.
Qed.

Lemma cleanElems_names rooted p : Forall isName (cleanElems rooted (elems p)).
Proof.
  apply cleanElems_Forall, Forall_forall. intros c. apply elems_isName.
Qed.

(** [Clean] keeps a path rooted or relative. *)
Lemma IsAbs_Clean p : IsAbs (Clean p) = IsAbs p.
Proof.
  unfold Clean. destruct (IsAbs p) eqn:Hp; [done|].
  pose proof (cleanElems_names false p) as Hn.
  destruct (cleanElems false (elems p)) as [|c cs]; [done|].
  apply IsAbs_concat_names. by inversion Hn.
Qed.

Lemma Clean_nonempty p : Clean p ≠ "".
Proof.
  unfold Clean. destruct (IsAbs p); [done|].
  pose proof (cleanElems_names false p) as Hn.
  destruct (cleanElems false (elems p)) as [|c cs]; [done|].
  inversion Hn as [|?? [Hc _] _]; subst.
  destruct cs; [done|]. rewrite concat_cons2. by destruct c.
Qed.

(** The elements of a cleaned path. *)
Lemma elems_Clean p :
  elems (Clean p) =
    match cleanElems (IsAbs p) (elems p) with
    | [] => if IsAbs p then [] else ["."]
    | out => out
    end.
Proof.
  unfold Clean. pose proof (cleanElems_names (IsAbs p) p) as Hn.
  destruct (IsAbs p).
  - change ("/" +:+ ?x) with ("" +:+ "/" +:+ x).
    rewrite elems_app_slash, elems_concat_names by done.
    by destruct (cleanElems true (elems p)).
  - destruct (cleanElems false (elems p)) as [|c cs] eqn:Hout; [done|].
    by rewrite elems_concat_names.
Qed.

(** *** Walking a path *)

Lemma walk_nil k : walk k [] = k.
Proof. unfold walk. simpl. apply reverse_involutive. Qed.

Lemma walk_app k cs1 cs2 : walk k (cs1 ++ cs2) = walk (walk k cs1) cs2.
Proof. unfold walk. by rewrite foldl_app, reverse_involutive. Qed.

Lemma walk_snoc k cs c :
  walk k (cs ++ [c]) = reverse (walkStep (reverse (walk k cs)) c).
Proof. by rewrite walk_app. Qed.

Lemma walk_dot k : walk k ["."] = k.
Proof. unfold walk. simpl. apply reverse_involutive. Qed.

Lemma walk_dotdot k : walk k [".."] = parent k.
Proof. done. Qed.

Lemma walk_plain k c : plain c → walk k [c] = k ++ [c].
Proof.
  intros [H1 H2]. unfold walk, walkStep. simpl.
  rewrite !decide_False by done. by rewrite reverse_cons, reverse_involutive.
Qed.

(** Cleaning a path lexically does not change the file it names. *)
Lemma walk_cleanElems rooted k cs :
  (rooted = true → k = []) → walk k (cleanElems rooted cs) = walk k cs.
Proof.
  intros Hk. unfold cleanElems.
  assert (Forall (λ c, c ≠ ".") (foldl (cleanStep rooted) [] cs) ∧
          walk k (reverse (foldl (cleanStep rooted) [] cs)) = walk k cs)
    as [_ ?]; [|done].
  induction cs as [|c cs [Hinv IH]] using rev_ind; [done|].
  rewrite foldl_app. simpl. set (t := foldl (cleanStep rooted) [] cs) in *.
  rewrite walk_snoc, <-IH. unfold cleanStep, walkStep.
  destruct (decide (c = ".")) as [->|Hdot].
  { split; [done|]. by rewrite reverse_involutive. }
  destruct (decide (c = "..")) as [->|Hdd].
  - destruct t as [|top t'].
    + destruct rooted.
      * split; [done|]. rewrite Hk by done. reflexivity.
      * split; [by repeat constructor|].
        change (reverse [".."]) with [".."]. change (reverse []) with (@nil string).
        rewrite walk_nil. apply walk_dotdot.
    + destruct (decide (top = "..")) as [->|Htop].
      * split; [by constructor|]. by rewrite reverse_cons, walk_snoc.
      * inversion Hinv as [|?? Htop' Ht']; subst. split; [done|].
        rewrite (reverse_cons t' top), walk_snoc. unfold walkStep.
        rewrite !decide_False by done.
        rewrite reverse_involutive. simpl. by rewrite reverse_involutive.
  - split; [by constructor|]. rewrite reverse_cons, walk_snoc. unfold walkStep.
    by rewrite !decide_False by done.
Qed.

Lemma resolve_Clean cwd p : resolve cwd (Clean p) = resolve cwd p.
Proof.
  unfold resolve. rewrite IsAbs_Clean, elems_Clean.
  rewrite <-(walk_cleanElems (IsAbs p) _ (elems p)) by (by destruct (IsAbs p)).
  destruct (cleanElems (IsAbs p) (elems p)) eqn:Hout; [|done].
  destruct (IsAbs p); [done|]. by rewrite walk_dot, walk_nil.
Qed.

(** The file named by a directory joined with one more path. *)
Lemma resolve_Join cwd a b :
  a ≠ "" → resolve cwd (Join [a; b]) = walk (resolve cwd a) (elems b).
Proof.
  intros Ha. unfold Join. rewrite decide_False by done.
  rewrite resolve_Clean, concat_cons2. simpl String.concat.
  unfold resolve. by rewrite elems_app_slash, IsAbs_app, walk_app.
Qed.

Lemma Join_nonempty a b : a ≠ "" → Join [a; b] ≠ "".
Proof.
  intros Ha. unfold Join. rewrite decide_False by done. apply Clean_nonempty.
Qed.


Lemma Base_elems p :
  elems (Base p) = [] ∨ ∃ c, isName c ∧ elems (Base p) = [c].
Proof.
  unfold Base. case_decide; [right; by exists "."|].
  destruct (last (elems p)) as [c|] eqn:Hlast; [|by left].
  right. exists c. assert (isName c) as Hc.
  { apply (elems_isName p). apply last_Some in Hlast as [l ->]. set_solver. }
  split; [done|]. by apply elems_name.
Qed.

Lemma parent_prefix k : parent k `prefix_of` k.
Proof.
  unfold parent. rewrite <-(reverse_involutive k) at 2.
  destruct (reverse k) as [|x r]; [done|].
  simpl. rewrite reverse_cons. by apply prefix_app_r.
Qed.

(** One more name from a directory stays within the directory's parent. *)
Lemma walk_one_within d cs :
  cs = [] ∨ (∃ c, isName c ∧ cs = [c]) → within (parent d) (walk d cs).
Proof.
  unfold within. intros [->|(c & Hc & ->)].
  - rewrite walk_nil. apply parent_prefix.
  - destruct (decide (c = ".")) as [->|?]; [rewrite walk_dot; apply parent_prefix|].
    destruct (decide (c = "..")) as [->|?]; [by rewrite walk_dotdot|].
    rewrite walk_plain by done. etrans; [apply parent_prefix|]. by apply prefix_app_r.
Qed.

Lemma Split_ReplaceAll s :
  Split "/" (ReplaceAll s "/" "-") = [ReplaceAll s "/" "-"].
Proof.
  induction s as [|c s IH]; [done|]. simpl. rewrite IH.
  by destruct (Ascii.eqb c "/") eqn:Hc; [|rewrite Hc].
Qed.

Lemma specifierChar_plain c : specifierChar c = true → c ≠ "."%char ∧ c ≠ "/"%char.
Proof. by split; intros ->. Qed.

Lemma specifierChars_Split s : specifierChars s = true → Split "/" s = [s].
Proof.
  induction s as [|c s IH]; [done|]. simpl.
  intros [Hc Hs]%andb_true_iff. rewrite IH by done.
  apply specifierChar_plain in Hc as [_ Hc].
  by apply Ascii.eqb_neq in Hc as ->.
Qed.

Lemma specifierChars_plain s : specifierChars s = true → plain s.
Proof.
  destruct s as [|c s]; [done|]. simpl.
  intros [[Hc _]%specifierChar_plain _]%andb_true_iff.
  split; intros [=]; done.
Qed.

Lemma specifierChars_elems s :
  specifierChars s = true → Forall plain (elems s).
Proof.
  intros Hs. destruct (decide (s = "")) as [->|Hne]; [by constructor|].
  rewrite elems_name by (split; [done|by apply specifierChars_Split]).
  repeat constructor; by apply specifierChars_plain.
Qed.


Lemma concat_head sep c r cs :
  ∃ r', String.concat sep (String c r :: cs) = String c r'.
Proof. destruct cs; [by eexists|]. rewrite concat_cons2. by eexists. Qed.

(** The name of a platform's directory is a plain name. *)
Lemma platformDir_name p :
  OS p = "linux" →
  specifierChars (Architecture p) = true →
  specifierChars (Variant p) = true →
  let d := ReplaceAll (platforms_Format p) "/" "-" in
  isName d ∧ plain d.
Proof.
  intros Hos Ha Hv. unfold platforms_Format. rewrite Hos.
  rewrite decide_False by done. unfold Join. rewrite decide_False by done.
  set (q := String.concat "/" ["linux"; Architecture p; Variant p]).
  assert (IsAbs q = false) as Hq.
  { unfold q. rewrite concat_cons2. by rewrite IsAbs_app. }
  assert (elems q = "linux" :: (elems (Architecture p) ++ elems (Variant p)))
    as Hel.
  { unfold q. rewrite !concat_cons2. simpl String.concat.
    by rewrite !elems_app_slash. }
  assert (∃ r, Clean q = String "l" r) as [r Hr].
  { unfold Clean. rewrite Hq, Hel, cleanElems_plain.
    - apply concat_head.
    - constructor; [done|]. apply Forall_app. split; by apply specifierChars_elems. }
  rewrite Hr. simpl. split; [split|split]; try done.
  simpl. by rewrite Split_ReplaceAll.
Qed.

(** *** The path functions on some paths *)

Example Clean_examples :
  Clean "a//b/../c/." = "a/c" ∧ Clean "/../a" = "/a" ∧
  Clean "../../a" = "../../a" ∧ Clean "a/b/../../.." = ".." ∧
  Clean "" = "." ∧ Clean "/." = "/" ∧ Clean "//tmp///x/" = "/tmp/x".
Proof. vm_compute. repeat split. Qed.

Example Join_examples :
  Join ["/tmp/immutos-1"; "linux-amd64"] = "/tmp/immutos-1/linux-amd64" ∧
  Join [""; "a"; ""; "b"] = "a/b" ∧ Join [""; ""] = "" ∧
  Join ["/tmp/x"; ".."] = "/tmp" ∧ Join ["scratch"; "a.deb"] = "scratch/a.deb".
Proof. vm_compute. repeat split. Qed.

Example Base_examples :
  Base "/pool/main/b/bash_5.2_amd64.deb" = "bash_5.2_amd64.deb" ∧
  Base "a/b/" = "b" ∧ Base "" = "." ∧ Base "///" = "/" ∧ Base "a/.." = "..".
Proof. vm_compute. repeat split. Qed.

Example Split_examples :
  Split "," "linux/amd64,linux/arm64" = ["linux/amd64"; "linux/arm64"] ∧
  Split "," "" = [""] ∧ Split "," "a,,b" = ["a"; ""; "b"].
Proof. vm_compute. repeat split. Qed.

Example platformTempDir_examples :
  platformTempDirOf "/tmp/immutos-1"
    {| OS := "linux"; Architecture := "arm"; Variant := "v7" |}
  = "/tmp/immutos-1/linux-arm-v7" ∧
  resolve ["home"; "user"] "scratch/immutos-1/../x" = ["home"; "user"; "scratch"; "x"].
Proof. vm_compute. repeat split. Qed.

End Paths.

(** ** Computations *)

Lemma bindR_Ok {A B} (c : M (result A)) (k : A → M (result B)) s v s' :
  bindR c k s = (Ok v, s') → ∃ a s1, c s = (Ok a, s1) ∧ k a s1 = (Ok v, s').
Proof.
  unfold bindR. destruct (c s) as [[a|e] s1]; [by eauto|done].
Qed.

Lemma bindR_Err {A B} (c : M (result A)) (k : A → M (result B)) s e s' :
  bindR c k s = (Err e, s') →
  c s = (Err e, s') ∨ ∃ a s1, c s = (Ok a, s1) ∧ k a s1 = (Err e, s').
Proof.
  unfold bindR. destruct (c s) as [[a|e1] s1]; [by eauto|].
  intros [= -> ->]. by left.
Qed.

Lemma wrapping_Ok {A} msg (c : M (result A)) s v s' :
  wrapping msg c s = (Ok v, s') → c s = (Ok v, s').
Proof.
  unfold wrapping. destruct (c s) as [[a|e] s1]; simpl; congruence.
Qed.

Lemma ofError_Ok err : ofError err = Ok tt ↔ err = None.
Proof. by destruct err. Qed.

(** ** The downloader *)

Section DownloadProps.
Context `{Extern}.

Lemma hashreader_Verify_None read expected :
  hashreader_Verify read expected = None ↔ sha256_hex read = expected.
Proof. unfold hashreader_Verify. by case_decide. Qed.

(** A download that is accepted was verified, and the file holds the
    verified bytes. *)
Lemma downloadPackage_Ok ctx downloadDir pkgURL sha256 s path s' :
  downloadPackage ctx downloadDir pkgURL sha256 s = (Ok path, s') →
  verifiedDownload ctx downloadDir pkgURL sha256 path ∧
  ∃ body, fs s' !! resolve (cwd s) path = Some (File body) ∧
          sha256_hex body = sha256.
Proof.
  unfold downloadPackage. intros Hrun.
  apply bindR_Ok in Hrun as (url & s1 & Hurl%wrapping_Ok & Hrun).
  apply bindR_Ok in Hrun as ([] & s2 & Hreq%wrapping_Ok & Hrun).
  apply bindR_Ok in Hrun as (resp & s3 & Hresp%wrapping_Ok & Hrun).
  apply bindR_Ok in Hrun as (k & s4 & Hcreate%wrapping_Ok & Hrun).
  unfold bind, file_Write in Hrun.
  apply bindR_Ok in Hrun as ([] & s5 & Hread%wrapping_Ok & Hrun).
  apply bindR_Ok in Hrun as ([] & s6 & Hver%wrapping_Ok & Hrun).
  unfold ret in *. simplify_eq.
  match goal with H : ofError (BodyErr _) = _ |- _ => apply ofError_Ok in H end.
  match goal with H : ofError (hashreader_Verify _ _) = _ |- _ =>
    apply ofError_Ok, hashreader_Verify_None in H end.
  unfold os_Create in Hcreate.
  destruct (isDir (fs s3) (resolve _ _)); [done|].
  destruct (isDir (fs s3) (parent _)); simplify_eq.
  split.
  - by exists url, resp.
  - exists (Body resp). simpl. by rewrite lookup_insert_eq.
Qed.


(** Every error of [downloadPackage] is a wrapped one. *)
Lemma downloadPackage_Err ctx downloadDir pkgURL sha256 s e s' :
  downloadPackage ctx downloadDir pkgURL sha256 s = (Err e, s') →
  ∃ msg e0, e = wrapError msg e0.
Proof.
  unfold downloadPackage. intros Hrun.
  repeat match goal with
  | H : bindR (wrapping _ _) _ _ = (Err _, _) |- _ =>
      apply bindR_Err in H as [H|(? & ? & _ & H)];
      [unfold wrapping in H; case_match; destruct r; simplify_eq/=; by eauto|]
  | H : bind _ _ _ = _ |- _ => unfold bind, file_Write in H
  end.
  done.
Qed.

Lemma causes_wrapped msg e0 : causes (wrapError msg e0) = [wrapError msg e0].
Proof. done. Qed.

Lemma Join_snoc errs e :
  causesOf (errors.Join [errs; Some e]) = causesOf errs ++ causes e.
Proof.
  destruct errs as [e1|]; simpl; by rewrite ?app_nil_r.
Qed.

Lemma Join_snoc_Some errs e : is_Some (errors.Join [errs; Some e]).
Proof. by destruct errs. Qed.

Lemma causesOf_joinAll errs es :
  causesOf (joinAll errs es) = causesOf errs ++ (es ≫= causes).
Proof.
  revert errs. induction es as [|e es IH]; intros errs; simpl.
  - by rewrite app_nil_r.
  - rewrite IH, Join_snoc. by rewrite <-app_assoc.
Qed.

Lemma joinAll_is_Some errs es :
  is_Some errs ∨ es ≠ [] → is_Some (joinAll errs es).
Proof.
  revert errs. induction es as [|e es IH]; intros errs [Herrs|Hes]; simpl;
    try done; apply IH; left; apply Join_snoc_Some.
Qed.

Lemma allFail_causes ctx tempDir sha256 urls s es s' :
  allFail ctx tempDir sha256 urls s es s' → es ≫= causes = es.
Proof.
  induction 1 as [|u urls s e s1 es s' Hrun _ IH]; [done|].
  apply downloadPackage_Err in Hrun as (msg & e0 & ->).
  by rewrite bind_cons, IH.
Qed.

Lemma allFail_length ctx tempDir sha256 urls s es s' :
  allFail ctx tempDir sha256 urls s es s' → length es = length urls.
Proof. induction 1; simpl; congruence. Qed.

Lemma allFail_nil_inv ctx tempDir sha256 urls s s' :
  allFail ctx tempDir sha256 urls s [] s' → urls = [] ∧ s' = s.
Proof. by inversion 1. Qed.

(** Each URL of a failed run of attempts was tried and failed. *)
Lemma allFail_each ctx tempDir sha256 urls s es s' :
  allFail ctx tempDir sha256 urls s es s' →
  ∀ pkgURL, pkgURL ∈ urls →
    ∃ s1 e s2, downloadPackage ctx tempDir pkgURL sha256 s1 = (Err e, s2) ∧
               e ∈ es.
Proof.
  induction 1 as [|u urls s e s1 es s' Hrun _ IH]; intros pkgURL Hin.
  - by apply elem_of_nil in Hin.
  - apply elem_of_cons in Hin as [->|Hin].
    + exists s, e, s1. split; [done|]. by left.
    + destruct (IH _ Hin) as (s2 & e' & s3 & ? & ?).
      exists s2, e', s3. split; [done|]. by right.
Qed.

(** The loop over the URLs: either every attempt failed and the errors
    were joined, or the attempts before the first success failed, the
    loop ended there and no error is left. *)
Lemma tryURLs_spec ctx tempDir sha256 urls errs s r path s' :
  tryURLs ctx tempDir sha256 urls errs s = (r, path, s') →
  (path = None ∧
   ∃ es, allFail ctx tempDir sha256 urls s es s' ∧ r = joinAll errs es) ∨
  (r = None ∧
   ∃ p urls1 pkgURL urls2 es s1,
     path = Some p ∧ urls = urls1 ++ pkgURL :: urls2 ∧
     allFail ctx tempDir sha256 urls1 s es s1 ∧
     downloadPackage ctx tempDir pkgURL sha256 s1 = (Ok p, s')).
Proof.
  revert errs s. induction urls as [|u urls IH]; intros errs s; simpl.
  - intros [= <- <- <-]. left. split; [done|]. exists []. split; [constructor|done].
  - unfold bind. destruct (downloadPackage ctx tempDir u sha256 s) as [[p|e] s1] eqn:Hrun.
    + intros [= <- <- <-]. right. split; [done|].
      exists p, [], u, urls, [], s. repeat split; [constructor|done].
    + intros Hrest. apply IH in Hrest as [(-> & es & Hall & ->)|(-> & Hok)].
      * left. split; [done|]. exists (e :: es). split; [by econstructor|done].
      * right. split; [done|].
        destruct Hok as (p & urls1 & v & urls2 & es & s2 & -> & -> & Hall & Hok).
        exists p, (u :: urls1), v, urls2, (e :: es), s2.
        repeat split; [by econstructor|done].
Qed.


(** C2.  The worker of a package tries the URLs one at a time.  When it
    returns an error, every attempt failed, so every URL of the package
    was tried and failed, and the error wraps the join of the errors of
    the attempts, each of them among its causes, in order.  When a URL
    succeeds, the loop stops there and the errors of the attempts before
    it are dropped: the worker returns no error. *)
Theorem downloadWorker_fails_only_if_all_fail ctx tempDir pkg s err path s' :
  (∀ l, util_Shuffle l ≡ₚ l) →
  downloadWorker ctx tempDir pkg s = (err, path, s') →
  match err with
  | Some e =>
      path = None ∧
      ∃ es,
        allFail ctx tempDir (SHA256 pkg) (util_Shuffle (URLs pkg)) s es s' ∧
        (∀ pkgURL, pkgURL ∈ URLs pkg →
           ∃ s1 e1 s2,
             downloadPackage ctx tempDir pkgURL (SHA256 pkg) s1 = (Err e1, s2) ∧
             e1 ∈ es) ∧
        length es = length (URLs pkg) ∧
        ∃ j, e = wrapError "failed to download package" j ∧ causes j = es
  | None =>
      (URLs pkg = [] ∧ path = None ∧ s' = s) ∨
      ∃ p urls1 pkgURL urls2 es s1,
        path = Some p ∧
        util_Shuffle (URLs pkg) = urls1 ++ pkgURL :: urls2 ∧
        allFail ctx tempDir (SHA256 pkg) urls1 s es s1 ∧
        downloadPackage ctx tempDir pkgURL (SHA256 pkg) s1 = (Ok p, s')
  end.
Proof.
  intros Hperm. unfold downloadWorker, bind, ret.
  destruct (tryURLs _ _ _ _ _ s) as [[errs path'] s1] eqn:Hloop.
  intros [= <- <- <-].
  apply tryURLs_spec in Hloop as [(-> & es & Hall & ->)|(-> & Hok)].
  - destruct (joinAll None es) as [j|] eqn:Hj; simpl.
    + split; [done|]. exists es. split; [done|]. split; [|split].
      * intros u Hu. eapply allFail_each; [done|]. by rewrite Hperm.
      * erewrite allFail_length by done. by rewrite Hperm.
      * exists j. split; [done|].
        change (causes j) with (causesOf (Some j)).
        rewrite <-Hj, causesOf_joinAll. simpl. by eapply allFail_causes.
    + left. destruct es as [|e es].
      * apply allFail_nil_inv in Hall as [Hnil ->]. split; [|done].
        apply Permutation_nil_r. by rewrite <-Hperm, Hnil.
      * destruct (joinAll_is_Some None (e :: es)) as [? Hsome]; [by right|].
        congruence.
  - simpl. right. destruct Hok as (p & urls1 & u & urls2 & es & s2 & ?).
    by exists p, urls1, u, urls2, es, s2.
Qed.

(** The path a worker hands over is a verified download of one of the
    URLs of its package. *)
Lemma downloadWorker_path ctx tempDir pkg s err p s' :
  downloadWorker ctx tempDir pkg s = (err, Some p, s') →
  ∃ pkgURL, pkgURL ∈ util_Shuffle (URLs pkg) ∧
            verifiedDownload ctx tempDir pkgURL (SHA256 pkg) p.
Proof.
  unfold downloadWorker, bind, ret.
  destruct (tryURLs _ _ _ _ _ s) as [[errs path'] s1] eqn:Hloop.
  intros [= <- -> <-].
  apply tryURLs_spec in Hloop as [(? & _)|(-> & Hok)]; [done|].
  destruct Hok as (p' & urls1 & u & urls2 & es & s2 & [= <-] & Hurls & _ & Hok).
  exists u. split; [rewrite Hurls; set_solver|].
  by apply downloadPackage_Ok in Hok as [? _].
Qed.

(** A path of the group is one it started with or a verified download
    of a URL of one of the packages. *)
Lemma downloadGroup_paths ctx tempDir pkgs packagePaths gerr s paths err s' :
  downloadGroup ctx tempDir pkgs packagePaths gerr s = (paths, err, s') →
  ∀ p, p ∈ paths → p ∈ packagePaths ∨ verifiedFor tempDir pkgs p.
Proof.
  revert packagePaths gerr s.
  induction pkgs as [|pkg pkgs IH]; intros packagePaths gerr s; simpl.
  - intros [= <- <- <-] p Hp. by left.
  - unfold bind.
    destruct (downloadWorker _ tempDir pkg s) as [[e path] s1] eqn:Hw.
    intros Hrest p Hp. destruct (IH _ _ _ Hrest p Hp) as [Hin|Hv].
    + apply elem_of_app in Hin as [Hin|Hin]; [by left|]. right.
      destruct path as [p'|]; [|by apply elem_of_nil in Hin].
      apply list_elem_of_singleton in Hin as ->.
      apply downloadWorker_path in Hw as (u & Hu & Hv).
      exists pkg, u, (ctx || bool_decide (is_Some gerr)). split; [by left|done].
    + right. destruct Hv as (pkg' & u & ctx' & Hpkg & Hu & Hv).
      exists pkg', u, ctx'. split; [by right|done].
Qed.

Lemma downloadSelectedPackages_Ok ctx tempDir selectedDB s paths s' :
  downloadSelectedPackages ctx tempDir selectedDB s = (Ok paths, s') →
  ∃ packagePaths,
    paths = slices_Sort packagePaths ∧
    ∀ p, p ∈ packagePaths → verifiedFor tempDir (db_ForEach selectedDB) p.
Proof.
  unfold downloadSelectedPackages, bind, ret.
  destruct (downloadGroup _ _ _ _ _ s) as [[packagePaths err] s1] eqn:Hg.
  destruct err; intros [= <- <-]. exists packagePaths. split; [done|].
  intros p Hp. eapply downloadGroup_paths in Hg as [Hin|?]; [|done|done].
  by apply elem_of_nil in Hin.
Qed.

Lemma slices_Sort_elem_of l p : p ∈ slices_Sort l ↔ p ∈ l.
Proof. unfold slices_Sort. by rewrite merge_sort_Permutation. Qed.

(** C1.  A download is accepted only when the body was read to its end
    and its SHA-256 digest is the expected one, and then the file holds
    the verified bytes; so every path in the list the downloader returns
    is the verified download of a URL of a selected package, against that
    package's [SHA256] field.  (The statement is about the paths that are
    accepted: a later attempt for a URL with the same base name writes to
    the same file.) *)
Theorem downloads_are_verified ctx tempDir selectedDB s paths s' :
  downloadSelectedPackages ctx tempDir selectedDB s = (Ok paths, s') →
  (∀ ctx1 pkgURL sha256 s1 path s2,
     downloadPackage ctx1 tempDir pkgURL sha256 s1 = (Ok path, s2) →
     verifiedDownload ctx1 tempDir pkgURL sha256 path ∧
     ∃ body, fs s2 !! resolve (cwd s1) path = Some (File body) ∧
             sha256_hex body = sha256) ∧
  ∀ path, path ∈ paths →
    ∃ pkg pkgURL ctx1,
      pkg ∈ db_ForEach selectedDB ∧
      pkgURL ∈ util_Shuffle (URLs pkg) ∧
      verifiedDownload ctx1 tempDir pkgURL (SHA256 pkg) path.
Proof.
  intros Hrun. split.
  - intros. by apply downloadPackage_Ok.
  - intros path Hpath.
    apply downloadSelectedPackages_Ok in Hrun as (packagePaths & -> & Hv).
    rewrite slices_Sort_elem_of in Hpath. exact (Hv _ Hpath).
Qed.



End DownloadProps.

(** ** The downloader in the small world *)

Section DownloadExamples.
#[local] Existing Instance Toy.world.

(** The package of the small world, downloaded into the scratch
    directory: the first mirror fails the check, the second is accepted. *)
Lemma downloads_are_verified_witness :
  ∃ pkg pkgURL ctx1,
    pkg ∈ [Toy.baseFiles] ∧ pkgURL ∈ URLs pkg ∧
    verifiedDownload ctx1 Toy.scratchDir pkgURL (SHA256 pkg)
      "scratch/immutos-1/linux-amd64/base-files_12.4_amd64.deb".
Proof.
  refine (proj2 (downloads_are_verified (H := Toy.world) false Toy.scratchDir
    [Toy.baseFiles] Toy.initScratch
    ["scratch/immutos-1/linux-amd64/base-files_12.4_amd64.deb"]
    (downloadSelectedPackages false Toy.scratchDir [Toy.baseFiles]
       Toy.initScratch).2 _) _ _).
  - vm_compute. reflexivity.
  - by left.
Defined.

(** A package whose only mirror serves the wrong body: the worker fails,
    and the cause is the failed check of that mirror. *)
Lemma downloadWorker_fails_only_if_all_fail_witness :
  ∃ es,
    allFail false Toy.scratchDir Toy.digestEmpty [Toy.mirrorA] Toy.initScratch
      es (downloadWorker false Toy.scratchDir Toy.broken Toy.initScratch).2 ∧
    causes (joinError
              [wrapError "failed to verify package" (errorString "hash mismatch")])
    = es.
Proof.
  pose proof (downloadWorker_fails_only_if_all_fail (H := Toy.world) false
    Toy.scratchDir Toy.broken Toy.initScratch
    (Some (wrapError "failed to download package"
       (joinError
          [wrapError "failed to verify package" (errorString "hash mismatch")])))
    None
    (downloadWorker false Toy.scratchDir Toy.broken Toy.initScratch).2
    (λ l, reflexivity l)) as Hw.
  destruct Hw as (_ & es & Hall & _ & _ & j & [= <-] & Hj);
    [vm_compute; reflexivity|].
  by exists es.
Defined.



End DownloadExamples.

(** ** Events of a run *)

Lemma appends_refl (P : event → Prop) s : appends P s s.
Proof. split; [done|]. exists []. by rewrite app_nil_r. Qed.

Lemma appends_trans (P : event → Prop) s1 s2 s3 :
  appends P s1 s2 → appends P s2 s3 → appends P s1 s3.
Proof.
  intros [Hc1 (evs1 & Ht1 & HP1)] [Hc2 (evs2 & Ht2 & HP2)].
  split; [congruence|]. exists (evs1 ++ evs2).
  split; [by rewrite Ht2, Ht1, app_assoc|by apply Forall_app].
Qed.

Lemma appends_mono (P Q : event → Prop) s s' :
  (∀ e, P e → Q e) → appends P s s' → appends Q s s'.
Proof.
  intros HPQ [Hc (evs & Ht & HP)]. split; [done|]. exists evs.
  split; [done|]. by eapply Forall_impl.
Qed.

Lemma appends_setFS (P : event → Prop) s t : appends P s (setFS s t).
Proof. split; [done|]. exists []. by rewrite app_nil_r. Qed.

Lemma emit_appends (P : event → Prop) e s u s' :
  emit e s = (u, s') → P e → appends P s s'.
Proof.
  intros [= <- <-] He. split; [done|]. exists [e]. by repeat constructor.
Qed.

Lemma liftFS_appends {A} (P : event → Prop) (f : FS → A * FS) s a s' :
  liftFS f s = (a, s') → appends P s s'.
Proof.
  unfold liftFS. destruct (f (fs s)) as [a' t]. intros [= <- <-].
  apply appends_setFS.
Qed.

Lemma os_MkdirAll_appends (P : event → Prop) path s err s' :
  os_MkdirAll path s = (err, s') → appends P s s'.
Proof.
  unfold os_MkdirAll. case_match; intros [= <- <-];
    [apply appends_refl|apply appends_setFS].
Qed.

Lemma os_Create_appends name s r s' :
  os_Create name s = (r, s') →
  appends (λ e, e = EvCreate (resolve (cwd s) name)) s s'.
Proof.
  unfold os_Create. repeat case_match; intros [= <- <-];
    try apply appends_refl.
  split; [done|]. eexists [_]. by repeat constructor.
Qed.

Lemma wrapping_state {A} msg (c : M (result A)) s r s' :
  wrapping msg c s = (r, s') → ∃ r0, c s = (r0, s').
Proof.
  unfold wrapping. destruct (c s) as [r0 s0]. intros [= <- <-]. by eexists.
Qed.

Lemma bindR_state {A B} (c : M (result A)) (k : A → M (result B)) s r s' :
  bindR c k s = (r, s') →
  (∃ e, c s = (Err e, s') ∧ r = Err e) ∨
  (∃ a s1, c s = (Ok a, s1) ∧ k a s1 = (r, s')).
Proof.
  unfold bindR. destruct (c s) as [[a|e] s1]; [by eauto|].
  intros [= <- <-]. left. by eexists.
Qed.

Lemma ret_state {A} (a : A) s r s' : ret a s = (r, s') → r = a ∧ s' = s.
Proof. by intros [= <- <-]. Qed.

Section DownloadEvents.
Context `{Extern}.

Lemma downloadPackage_appends ctx dir pkgURL sha256 s r s' :
  downloadPackage ctx dir pkgURL sha256 s = (r, s') →
  appends (downloadEvent (cwd s) dir) s s'.
Proof.
  unfold downloadPackage, bindR, bind, wrapping, ret, file_Write.
  destruct (url_Parse pkgURL) as [url|]; simpl;
    [|intros [= <- <-]; apply appends_refl].
  destruct (http_NewRequest _); simpl;
    [intros [= <- <-]; apply appends_refl|].
  destruct (http_Do _ _) as [resp|]; simpl;
    [|intros [= <- <-]; apply appends_refl].
  destruct (os_Create _ s) as [[k|e] s1] eqn:Hc; simpl.
  - intros Hrun. apply appends_trans with s1.
    + apply os_Create_appends in Hc. eapply appends_mono; [|done].
      intros e ->. eexists. split; [done|]. intros Hdir.
      rewrite resolve_Join by done. apply walk_one_within, Base_elems.
    + repeat case_match; simplify_eq/=; apply appends_setFS.
  - intros [= <- <-]. apply os_Create_appends in Hc.
    eapply appends_mono; [|done].
    intros e' ->. eexists. split; [done|]. intros Hdir.
    rewrite resolve_Join by done. apply walk_one_within, Base_elems.
Qed.

Lemma tryURLs_appends ctx dir sha256 urls errs s r s' :
  tryURLs ctx dir sha256 urls errs s = (r, s') →
  appends (downloadEvent (cwd s) dir) s s'.
Proof.
  revert errs s. induction urls as [|u urls IH]; intros errs s; simpl.
  - intros [= <- <-]. apply appends_refl.
  - unfold bind.
    destruct (downloadPackage ctx dir u sha256 s) as [[p|e] s1] eqn:Hrun;
      apply downloadPackage_appends in Hrun.
    + by intros [= <- <-].
    + intros Hrest%IH. eapply appends_trans; [done|].
      destruct Hrun as [<- _]. done.
Qed.

Lemma downloadWorker_appends ctx dir pkg s r s' :
  downloadWorker ctx dir pkg s = (r, s') →
  appends (downloadEvent (cwd s) dir) s s'.
Proof.
  unfold downloadWorker, bind, ret.
  destruct (tryURLs _ _ _ _ _ s) as [[errs path] s1] eqn:Hloop.
  intros [= <- <-]. by eapply tryURLs_appends.
Qed.

Lemma downloadGroup_appends ctx dir pkgs packagePaths gerr s r s' :
  downloadGroup ctx dir pkgs packagePaths gerr s = (r, s') →
  appends (downloadEvent (cwd s) dir) s s'.
Proof.
  revert packagePaths gerr s.
  induction pkgs as [|pkg pkgs IH]; intros packagePaths gerr s; simpl.
  - intros [= <- <-]. apply appends_refl.
  - unfold bind.
    destruct (downloadWorker _ dir pkg s) as [[e path] s1] eqn:Hw.
    apply downloadWorker_appends in Hw.
    intros Hrest%IH. eapply appends_trans; [done|].
    destruct Hw as [<- _]. done.
Qed.

Lemma downloadSelectedPackages_appends ctx dir selectedDB s r s' :
  downloadSelectedPackages ctx dir selectedDB s = (r, s') →
  appends (downloadEvent (cwd s) dir) s s'.
Proof.
  unfold downloadSelectedPackages, bind, ret.
  destruct (downloadGroup _ _ _ _ _ s) as [[packagePaths err] s1] eqn:Hg.
  apply downloadGroup_appends in Hg.
  by destruct err; intros [= <- <-].
Qed.

End DownloadEvents.

Lemma bind_state {A B} (c : M A) (k : A → M B) s r s' :
  bind c k s = (r, s') → ∃ a s1, c s = (a, s1) ∧ k a s1 = (r, s').
Proof. unfold bind. destruct (c s) as [a s1]. by eauto. Qed.

Lemma wrapping_ret {A} msg (x : result A) s r s' :
  wrapping msg (ret x) s = (r, s') → s' = s ∧ r = wrapResult msg x.
Proof. by intros [= <- <-]. Qed.

Lemma wrapResult_Ok {A} msg (x : result A) a :
  wrapResult msg x = Ok a → x = Ok a.
Proof. by destruct x. Qed.

Lemma parent_snoc k c : parent (k ++ [c]) = k.
Proof.
  unfold parent. rewrite reverse_app. simpl. apply reverse_involutive.
Qed.

Section PlatformProps.
Context `{Extern}.

Lemma platformTempDir_parent cw tempDir platform :
  tempDir ≠ "" → OS platform = "linux" →
  specifierChars (Architecture platform) = true →
  specifierChars (Variant platform) = true →
  parent (resolve cw (platformTempDirOf tempDir platform)) = resolve cw tempDir.
Proof.
  intros Hne Hos Ha Hv. unfold platformTempDirOf.
  destruct (platformDir_name platform Hos Ha Hv) as [Hname Hplain].
  rewrite resolve_Join by done. rewrite elems_name by done.
  rewrite walk_plain by done. apply parent_snoc.
Qed.

Lemma platformTempDir_nonempty tempDir platform :
  tempDir ≠ "" → platformTempDirOf tempDir platform ≠ "".
Proof. apply Join_nonempty. Qed.

(** The events of the loop body for one platform string. *)
Lemma buildPlatform_appends c rx tempDir buildOpts platformStr s r s' :
  buildPlatform c rx tempDir buildOpts platformStr s = (r, s') →
  appends (platformEvent c rx (cwd s) tempDir platformStr) s s'.
Proof.
  unfold buildPlatform. intros Hrun.
  apply bindR_state in Hrun as [(e & [-> _]%wrapping_ret & _)|Hrun];
    [apply appends_refl|].
  destruct Hrun as (platform & s1 & [-> Hp%eq_sym%wrapResult_Ok]%wrapping_ret & Hrun).
  case_decide as Hos; [apply ret_state in Hrun as [_ ->]; apply appends_refl|].
  assert (goodPlatform platformStr) as Hgood by (by exists platform).
  apply bind_state in Hrun as ([] & s1 & Hfetch & Hrun).
  eapply appends_trans; [by eapply emit_appends|].
  assert (cwd s1 = cwd s) as Hcw by (by injection Hfetch as <-).
  rewrite <-Hcw. clear Hfetch Hcw s. revert Hrun. generalize s1. clear s1.
  intros s Hrun.
  apply bindR_state in Hrun as [(e & [_ ->]%ret_state & _)|Hrun];
    [apply appends_refl|].
  destruct Hrun as ([packageDB sourceDateEpoch] & s1 & [_ ->]%ret_state & Hrun).
  apply bind_state in Hrun as ([] & s1 & Hres & Hrun).
  eapply appends_trans; [eapply emit_appends; [done|]; simpl; by eauto|].
  assert (cwd s1 = cwd s) as Hcw by (by injection Hres as <-).
  rewrite <-Hcw. clear Hres Hcw s. revert Hrun. generalize s1. clear s1.
  intros s Hrun.
  apply bindR_state in Hrun as [(e & [_ ->]%ret_state & _)|Hrun];
    [apply appends_refl|].
  destruct Hrun as (selectedDB & s1 & [_ ->]%ret_state & Hrun).
  apply bindR_state in Hrun as [(e & Hmk & _)|Hrun].
  { apply wrapping_state in Hmk as [r0 Hmk].
    apply bind_state in Hmk as (err & s1 & Hmk & [_ ->]%ret_state).
    by eapply os_MkdirAll_appends. }
  destruct Hrun as ([] & s2 & Hmk & Hrun).
  apply wrapping_state in Hmk as [r0 Hmk].
  apply bind_state in Hmk as (err & s1 & Hmk & [_ ->]%ret_state).
  eapply appends_trans; [by eapply os_MkdirAll_appends|].
  assert (cwd s1 = cwd s) as Hcw by (by apply (os_MkdirAll_appends (λ _, True)) in Hmk as [? _]).
  rewrite <-Hcw. clear Hmk Hcw s. revert Hrun. generalize s1. clear s1.
  intros s Hrun.
  apply bind_state in Hrun as ([] & s1 & Hdl & Hrun).
  eapply appends_trans; [by eapply emit_appends|].
  assert (cwd s1 = cwd s) as Hcw by (by injection Hdl as <-).
  rewrite <-Hcw. clear Hdl Hcw s. revert Hrun. generalize s1. clear s1.
  intros s Hrun.
  assert (∀ s1 r1,
    downloadSelectedPackages (ctx_done c) (platformTempDirOf tempDir platform)
      selectedDB s = (r1, s1) →
    appends (platformEvent c rx (cwd s) tempDir platformStr) s s1) as Hdown.
  { intros s1 r1 Hd%downloadSelectedPackages_appends.
    eapply appends_mono; [|done]. intros e (k & -> & Hk). simpl.
    intros Hspec Hne. destruct (Hspec _ _ Hp) as [Ha Hv].
    rewrite <-(platformTempDir_parent _ _ platform) by done.
    by apply Hk, platformTempDir_nonempty. }
  apply bindR_state in Hrun as [(e & Hd & _)|Hrun]; [by eapply Hdown|].
  destruct Hrun as (packagePaths & s1 & Hd & Hrun).
  eapply appends_trans; [by eapply Hdown|].
  assert (cwd s1 = cwd s) as Hcw by (by apply Hdown in Hd as [? _]).
  rewrite <-Hcw. clear Hd Hdown Hcw s. revert Hrun. generalize s1. clear s1.
  intros s Hrun.
  apply bind_state in Hrun as ([] & s1 & Hun & Hrun).
  eapply appends_trans; [by eapply emit_appends|].
  assert (cwd s1 = cwd s) as Hcw by (by injection Hun as <-).
  rewrite <-Hcw. clear Hun Hcw s. revert Hrun. generalize s1. clear s1.
  intros s Hrun.
  apply bindR_state in Hrun as [(e & Hu & _)|Hrun]; [by eapply liftFS_appends|].
  destruct Hrun as ([dpkg data] & s1 & Hu & [_ ->]%ret_state).
  by eapply liftFS_appends.
Qed.

End PlatformProps.

(** ** [loadPackageDB] *)

Lemma latest_spec (t0 : Time) (ds : list Time) :
  let m := foldr Z.max t0 ds in
  (t0 ≤ m)%Z ∧ (∀ d, d ∈ ds → (d ≤ m)%Z) ∧ (m = t0 ∨ m ∈ ds).
Proof.
  induction ds as [|d ds (IH0 & IHle & IHin)]; simpl.
  - split; [lia|]. split; [|by left]. intros d Hd. by apply elem_of_nil in Hd.
  - split; [lia|]. split.
    + intros d' [->|Hd']%elem_of_cons; [lia|]. specialize (IHle _ Hd'). lia.
    + destruct (Z.max_spec d (foldr Z.max t0 ds)) as [[_ ->]|[_ ->]].
      * destruct IHin as [->|Hin]; [by left|]. right. by right.
      * right. by left.
Qed.

Lemma latest_app (t0 : Time) (ds1 ds2 : list Time) :
  foldr Z.max t0 (ds1 ++ ds2) = Z.max (foldr Z.max t0 ds1) (foldr Z.max t0 ds2).
Proof.
  induction ds1 as [|d ds1 IH]; simpl.
  - pose proof (latest_spec t0 ds2) as [? _]. simpl in *. lia.
  - rewrite IH. lia.
Qed.

Lemma latest_le (a b : Time) (l : list Time) :
  (foldr Z.max b l ≤ Z.max b (foldr Z.max a l))%Z.
Proof. induction l; simpl; lia. Qed.

(** The order in which the workers finish does not matter. *)
Lemma latest_Permutation (t0 : Time) (ds1 ds2 : list Time) :
  ds1 ≡ₚ ds2 → foldr Z.max t0 ds1 = foldr Z.max t0 ds2.
Proof.
  induction 1 as [|x l l' _ IH|x y l|l l' l'' _ IH1 _ IH2]; simpl.
  - done.
  - by rewrite IH.
  - lia.
  - by rewrite IH1.
Qed.

Section LoadProps.
Context `{Extern}.

Lemma collectComponents_Ok platform sourceConfs components cs :
  collectComponents platform sourceConfs components = Ok cs →
  cs = components ++ (sourceConfs ≫= componentsOf platform).
Proof.
  revert components. induction sourceConfs as [|sc rest IH]; intros components.
  - intros [= <-]. by rewrite app_nil_r.
  - simpl. unfold componentsOf at 1.
    destruct (sourceComponents platform sc) as [cs'|]; [|done].
    intros ->%IH. by rewrite <-app_assoc.
Qed.

Lemma collectPackages_Ok components packageDB sourceDateEpoch db t :
  collectPackages components packageDB sourceDateEpoch = Ok (db, t) →
  t = Z.max sourceDateEpoch
        (foldr Z.max sourceDateEpoch (components ≫= lastUpdatedOf)).
Proof.
  revert packageDB sourceDateEpoch.
  induction components as [|component rest IH]; intros packageDB t0.
  - intros [= _ <-]. simpl. lia.
  - rewrite bind_cons. cbn [collectPackages]. unfold lastUpdatedOf at 1.
    destruct (component_Packages component) as [[pkgs lastUpdated]|]; [|done].
    intros Hrest. apply IH in Hrest. rewrite Hrest. clear IH Hrest.
    change (foldr Z.max t0 ([lastUpdated] ++ ?l))
      with (Z.max lastUpdated (foldr Z.max t0 l)).
    unfold time_After.
    pose proof (latest_spec t0 (rest ≫= lastUpdatedOf)) as (? & _).
    pose proof (latest_spec lastUpdated (rest ≫= lastUpdatedOf)) as (? & _).
    pose proof (latest_le t0 lastUpdated (rest ≫= lastUpdatedOf)).
    pose proof (latest_le lastUpdated t0 (rest ≫= lastUpdatedOf)).
    cbv zeta in *.
    destruct (t0 <? lastUpdated)%Z eqn:Hlt.
    + apply Z.ltb_lt in Hlt. lia.
    + apply Z.ltb_ge in Hlt. lia.
Qed.

(** The workers of the second group run side by side; in whatever order
    the components are gone through, the epoch is the same. *)
Lemma collectPackages_order components components' db db1 db2 t0 t1 t2 :
  components ≡ₚ components' →
  collectPackages components db t0 = Ok (db1, t1) →
  collectPackages components' db t0 = Ok (db2, t2) →
  t1 = t2.
Proof.
  intros Hperm ->%collectPackages_Ok ->%collectPackages_Ok. f_equal.
  apply latest_Permutation. by rewrite Hperm.
Qed.

(** The epoch [loadPackageDB] returns is the latest Release date of the
    components of the sources, or the zero time when there is none. *)
Lemma loadPackageDB_Ok rx platform db t :
  loadPackageDB rx platform = Ok (db, t) →
  t = foldr Z.max time_zero
        ((Sources rx ≫= componentsOf platform) ≫= lastUpdatedOf).
Proof.
  unfold loadPackageDB.
  destruct (collectComponents platform (Sources rx) []) as [cs|] eqn:Hcs;
    [|done].
  apply collectComponents_Ok in Hcs as ->. simpl.
  intros Hp%wrapResult_Ok%collectPackages_Ok. rewrite Hp.
  pose proof (latest_spec time_zero
    ((Sources rx ≫= componentsOf platform) ≫= lastUpdatedOf)) as (? & _).
  simpl in *. lia.
Qed.

End LoadProps.

(** ** The loop over the platforms *)

Section LoopProps.
Context `{Extern}.

Lemma goodPlatform_dec platformStr :
  goodPlatform platformStr ∨ ¬ goodPlatform platformStr.
Proof.
  unfold goodPlatform. destruct (platforms_Parse platformStr) as [p|e].
  - destruct (decide (OS p = "linux")); [left; by exists p|right].
    by intros (p' & [= <-] & ?).
  - right. by intros (p' & ? & _).
Qed.

(** A platform string that does not parse or whose OS is not [linux]
    ends the loop body with an error before anything is done. *)
Lemma buildPlatform_bad c rx tempDir buildOpts platformStr s r s' :
  ¬ goodPlatform platformStr →
  buildPlatform c rx tempDir buildOpts platformStr s = (r, s') →
  (∃ e, r = Err e) ∧ s' = s.
Proof.
  intros Hbad. unfold buildPlatform. intros Hrun.
  apply bindR_state in Hrun as [(e & [-> _]%wrapping_ret & ->)|Hrun];
    [by eauto|].
  destruct Hrun as (platform & s1 & [-> Hp%eq_sym%wrapResult_Ok]%wrapping_ret & Hrun).
  case_decide as Hos; [apply ret_state in Hrun as [-> ->]; by eauto|].
  destruct Hbad. by exists platform.
Qed.

Lemma buildPlatform_Ok c rx tempDir buildOpts platformStr s opts' s' :
  buildPlatform c rx tempDir buildOpts platformStr s = (Ok opts', s') →
  goodPlatform platformStr ∧
  ImageConf opts' = ImageConf buildOpts ∧
  SourceDateEpoch opts' =
    Z.max (SourceDateEpoch buildOpts)
      (foldr Z.max time_zero (releaseDates rx platformStr)) ∧
  ∃ evs packageDB,
    trace s' = trace s ++ evs ∧
    EvResolve platformStr (resolverSeeds (flag_dev c) rx packageDB) ∈ evs.
Proof.
  unfold buildPlatform. intros Hrun.
  apply bindR_Ok in Hrun as (platform & s1 & Hp & Hrun).
  apply wrapping_ret in Hp as [-> Hp%eq_sym%wrapResult_Ok].
  case_decide as Hos; [by apply ret_state in Hrun as [? _]|].
  apply bind_state in Hrun as ([] & sF & HF & Hrun). injection HF as <-.
  apply bindR_Ok in Hrun as ([packageDB sde] & s2 & [Hl ->]%ret_state & Hrun).
  apply bind_state in Hrun as ([] & sR & HR & Hrun). injection HR as <-.
  apply bindR_Ok in Hrun as (selectedDB & s3 & [Hsel ->]%ret_state & Hrun).
  apply bindR_Ok in Hrun as ([] & s4 & Hmk & Hrun).
  apply bind_state in Hrun as ([] & sD & HD & Hrun).
  apply bindR_Ok in Hrun as (paths & s5 & Hdl & Hrun).
  apply bind_state in Hrun as ([] & sU & HU & Hrun).
  apply bindR_Ok in Hrun as ([dpkg data] & s6 & Hun & Hrun).
  apply ret_state in Hrun as [[= ->] ->].
  split; [by exists platform|]. split.
  { simpl. by destruct (time_After _ _). }
  split.
  { symmetry in Hl. apply loadPackageDB_Ok in Hl.
    unfold releaseDates. rewrite Hp, <-Hl. simpl. unfold time_After.
    destruct (SourceDateEpoch buildOpts <? sde)%Z eqn:Hlt; simpl.
    - apply Z.ltb_lt in Hlt. lia.
    - apply Z.ltb_ge in Hlt. lia. }
  assert (appends (λ _, True)
    {| cwd := cwd s; fs := fs s;
       trace := (trace s ++ [EvFetch platformStr]) ++
                [EvResolve platformStr
                   (resolverSeeds (flag_dev c) rx packageDB)] |} s6)
    as [_ (evs & Hevs & _)].
  { apply wrapping_state in Hmk as [r0 Hmk].
    apply bind_state in Hmk as (err & sM & Hmk & [_ ->]%ret_state).
    eapply appends_trans; [by eapply os_MkdirAll_appends|].
    eapply appends_trans; [by eapply emit_appends|].
    eapply appends_trans;
      [eapply appends_mono; [|by eapply downloadSelectedPackages_appends]; done|].
    eapply appends_trans; [by eapply emit_appends|].
    by eapply liftFS_appends. }
  simpl in Hevs. eexists _, packageDB. split.
  - rewrite Hevs, <-!app_assoc. done.
  - set_solver.
Qed.


Lemma buildPlatforms_appends c rx tempDir buildOpts platformStrs s r s' :
  buildPlatforms c rx tempDir buildOpts platformStrs s = (r, s') →
  appends (λ e, ∃ platformStr, platformStr ∈ platformStrs ∧
                  platformEvent c rx (cwd s) tempDir platformStr e) s s'.
Proof.
  revert buildOpts s.
  induction platformStrs as [|p rest IH]; intros buildOpts s; simpl.
  - intros [_ ->]%ret_state. apply appends_refl.
  - intros [(e & Hp & _)|(o & s1 & Hp & Hrest)]%bindR_state;
      apply buildPlatform_appends in Hp.
    + eapply appends_mono; [|done]. intros ev Hev. exists p. split; [by left|done].
    + eapply appends_trans.
      * eapply appends_mono; [|done]. intros ev Hev. exists p. split; [by left|done].
      * apply IH in Hrest. destruct Hp as [<- _].
        eapply appends_mono; [|done]. intros ev (q & Hq & Hev).
        exists q. split; [by right|done].
Qed.

(** A platform string that is not accepted makes the loop fail. *)
Lemma buildPlatforms_bad c rx tempDir buildOpts platformStrs s r s' :
  buildPlatforms c rx tempDir buildOpts platformStrs s = (r, s') →
  ¬ Forall goodPlatform platformStrs → ∃ e, r = Err e.
Proof.
  revert buildOpts s.
  induction platformStrs as [|p rest IH]; intros buildOpts s; simpl.
  - intros _ []. constructor.
  - intros [(e & _ & ->)|(o & s1 & Hp & Hrest)]%bindR_state Hbad; [by eauto|].
    apply buildPlatform_Ok in Hp as (Hgood & _).
    eapply IH; [done|]. intros Hrestgood. apply Hbad. by constructor.
Qed.

Lemma buildPlatforms_Ok c rx tempDir buildOpts platformStrs s opts' s' :
  (time_zero ≤ SourceDateEpoch buildOpts)%Z →
  buildPlatforms c rx tempDir buildOpts platformStrs s = (Ok opts', s') →
  ImageConf opts' = ImageConf buildOpts ∧
  SourceDateEpoch opts' =
    Z.max (SourceDateEpoch buildOpts)
      (foldr Z.max time_zero (platformStrs ≫= releaseDates rx)) ∧
  ∃ evs,
    trace s' = trace s ++ evs ∧
    ∀ platformStr, platformStr ∈ platformStrs →
      ∃ packageDB,
        EvResolve platformStr (resolverSeeds (flag_dev c) rx packageDB) ∈ evs.
Proof.
  revert buildOpts s.
  induction platformStrs as [|p rest IH]; intros buildOpts s Hzero;
    cbn [buildPlatforms].
  - intros [[= ->] ->]%ret_state. split; [done|]. split.
    { change ([] ≫= releaseDates rx) with (@nil Time). unfold time_zero in *.
      simpl. lia. }
    exists []. split; [by rewrite app_nil_r|]. intros q Hq.
    by apply elem_of_nil in Hq.
  - intros (o & s1 & Hp & Hrest)%bindR_Ok.
    apply buildPlatform_Ok in Hp as (_ & Hconf & Hepoch & evs1 & db & Ht1 & Hev1).
    apply IH in Hrest as (Hconf' & Hepoch' & evs2 & Ht2 & Hev2);
      [|unfold time_zero in *; lia].
    split; [congruence|]. split.
    + rewrite bind_cons, Hepoch', Hepoch, latest_app. lia.
    + exists (evs1 ++ evs2). split; [by rewrite Ht2, Ht1, app_assoc|].
      intros q [->|Hq]%elem_of_cons.
      * exists db. apply elem_of_app. by left.
      * destruct (Hev2 _ Hq) as [db' ?]. exists db'. apply elem_of_app. by right.
Qed.

End LoopProps.

(** ** The build action *)

Section ActionProps.
Context `{Extern}.

Lemma rejectedPlatform_not_good platformStr :
  rejectedPlatform platformStr ↔ ¬ goodPlatform platformStr.
Proof.
  unfold rejectedPlatform, goodPlatform.
  destruct (platforms_Parse platformStr) as [p|e]; split.
  - intros Hos (p' & [= <-] & ?). done.
  - intros Hbad Hos. apply Hbad. by exists p.
  - by intros _ (p' & ? & _).
  - done.
Qed.

Lemma buildPlatforms_good c rx tempDir buildOpts platformStrs s opts' s' :
  buildPlatforms c rx tempDir buildOpts platformStrs s = (Ok opts', s') →
  Forall goodPlatform platformStrs.
Proof.
  revert buildOpts s.
  induction platformStrs as [|p rest IH]; intros buildOpts s;
    cbn [buildPlatforms]; [by constructor|].
  intros (o & s1 & Hp & Hrest)%bindR_Ok.
  apply buildPlatform_Ok in Hp as (Hgood & _). constructor; [done|by eapply IH].
Qed.

Lemma platformEvent_buildEvent c rx cw tempDir platformStr e :
  recipe_FromYAML (flag_filename c) = Ok rx →
  platformStr ∈ strings.Split "," (flag_platform c) →
  platformEvent c rx cw tempDir platformStr e →
  buildEvent c cw tempDir e.
Proof.
  intros Hrx Hin Hev. exists rx. split; [done|].
  destruct e; try (by exists platformStr). done.
Qed.

Lemma buildOptions_appends c tempDir s r s' :
  buildOptions c tempDir s = (r, s') →
  appends (buildEvent c (cwd s) tempDir) s s'.
Proof.
  unfold buildOptions. intros Hrun.
  apply bindR_state in Hrun as [(e & Hmk & _)|([] & s1 & Hmk & Hrun)];
    apply wrapping_state in Hmk as [r0 Hmk];
    apply bind_state in Hmk as (err & s2 & Hmk & [_ ->]%ret_state);
    [by eapply os_MkdirAll_appends|].
  eapply appends_trans; [by eapply os_MkdirAll_appends|].
  assert (cwd s2 = cwd s) as Hcw
    by (by apply (os_MkdirAll_appends (λ _, True)) in Hmk as [? _]).
  rewrite <-Hcw. clear Hmk Hcw s. revert Hrun. generalize s2. clear s2.
  intros s Hrun.
  apply bindR_state in Hrun as [(e & [-> _]%wrapping_ret & _)|Hrun];
    [apply appends_refl|].
  destruct Hrun as ([] & s1 & [-> _]%wrapping_ret & Hrun).
  apply bindR_state in Hrun as [(e & [-> _]%wrapping_ret & _)|Hrun];
    [apply appends_refl|].
  destruct Hrun as (rx & s1 & [-> Hrx%eq_sym%wrapResult_Ok]%wrapping_ret & Hrun).
  apply bindR_state in Hrun as [(e & [-> _]%wrapping_ret & _)|Hrun];
    [apply appends_refl|].
  destruct Hrun as ([] & s1 & [-> _]%wrapping_ret & Hrun).
  apply bindR_state in Hrun as [(e & Hexe & _)|(p & s1 & Hexe & Hrun)].
  - destruct (flag_dev c).
    + apply wrapping_ret in Hexe as [-> _]. apply appends_refl.
    + apply ret_state in Hexe as [_ ->]. apply appends_refl.
  - assert (s1 = s) as ->.
    { destruct (flag_dev c).
      + by apply wrapping_ret in Hexe as [-> _].
      + by apply ret_state in Hexe as [_ ->]. }
    apply buildPlatforms_appends in Hrun. eapply appends_mono; [|done].
    intros e (q & Hq & Hev). by eapply platformEvent_buildEvent.
Qed.

Lemma buildOptions_Ok c tempDir s buildOpts s' :
  buildOptions c tempDir s = (Ok buildOpts, s') →
  ∃ rx evs,
    recipe_FromYAML (flag_filename c) = Ok rx ∧
    builtFrom c rx buildOpts ∧
    trace s' = trace s ++ evs ∧
    ∀ platformStr, platformStr ∈ strings.Split "," (flag_platform c) →
      ∃ packageDB,
        EvResolve platformStr (resolverSeeds (flag_dev c) rx packageDB) ∈ evs.
Proof.
  unfold buildOptions. intros Hrun.
  apply bindR_Ok in Hrun as ([] & s1 & Hmk & Hrun).
  apply wrapping_state in Hmk as [r0 Hmk].
  apply bind_state in Hmk as (err & s2 & Hmk & [_ ->]%ret_state).
  apply (os_MkdirAll_appends (λ _, False)) in Hmk as [_ (evs0 & Ht0 & Hnone)].
  assert (evs0 = []) as -> by (destruct Hnone; [done|done]).
  rewrite app_nil_r in Ht0.
  apply bindR_Ok in Hrun as ([] & s1 & [-> _]%wrapping_ret & Hrun).
  apply bindR_Ok in Hrun as (rx & s1 & Hrx & Hrun).
  apply wrapping_ret in Hrx as [-> Hrx%eq_sym%wrapResult_Ok].
  apply bindR_Ok in Hrun as ([] & s1 & [-> _]%wrapping_ret & Hrun).
  apply bindR_Ok in Hrun as (p & s1 & Hexe & Hrun).
  assert (s1 = s2) as ->.
  { destruct (flag_dev c).
    + by apply wrapping_ret in Hexe as [-> _].
    + by apply ret_state in Hexe as [_ ->]. }
  pose proof (buildPlatforms_good _ _ _ _ _ _ _ _ Hrun) as Hgood.
  apply buildPlatforms_Ok in Hrun as (Hconf & Hepoch & evs & Ht & Hres);
    [|done].
  exists rx, evs. split; [done|]. split; [|split; [congruence|done]].
  split; [done|]. split; [|done]. rewrite Hepoch. simpl.
  pose proof (latest_spec time_zero
    (strings.Split "," (flag_platform c) ≫= releaseDates rx)) as (? & _).
  cbv zeta in *. unfold time_zero in *. lia.
Qed.

Lemma buildBody_spec c tempDir s err s' :
  buildBody c tempDir s = (err, s') →
  appends (buildEvent c (cwd s) tempDir) s s' ∧
  (err = None → ∃ evs, trace s' = trace s ++ evs ∧ built c evs).
Proof.
  unfold buildBody. intros (r & s1 & Hopts & Hrun)%bind_state.
  pose proof (buildOptions_appends _ _ _ _ _ Hopts) as Happ.
  destruct r as [buildOpts|e].
  - apply buildOptions_Ok in Hopts as (rx & evs & Hrx & Hfrom & Ht & Hres).
    apply bind_state in Hrun as ([] & s2 & Hemit & Hrun).
    apply bind_state in Hrun as (berr & s3 & Hbuild & [-> ->]%ret_state).
    injection Hemit as <-.
    apply (liftFS_appends (λ _, False)) in Hbuild as [Hcw (evs0 & Ht0 & Hnone)].
    assert (evs0 = []) as -> by (destruct Hnone; [done|done]).
    rewrite app_nil_r in Ht0. simpl in *. split.
    + eapply appends_trans; [done|]. split; [done|].
      exists [EvBuild buildOpts]. rewrite Ht0. split; [done|].
      repeat constructor. by exists rx.
    + intros _. exists (evs ++ [EvBuild buildOpts]).
      split; [by rewrite Ht0, Ht, app_assoc|].
      exists rx, buildOpts. split; [done|]. split; [done|].
      split; [apply elem_of_app; right; by left|].
      intros q Hq. destruct (Hres _ Hq) as [db ?]. exists db.
      apply elem_of_app. by left.
  - apply ret_state in Hrun as [-> ->]. split; [done|]. done.
Qed.

Lemma mkdirTemp_spec dir rands s r s' :
  mkdirTemp dir rands s = (r, s') →
  match r with
  | Ok name => name ≠ "" ∧ ∃ t, s' = setFS s t
  | Err _ => s' = s
  end.
Proof.
  revert s. induction rands as [|x rands IH]; intros s; simpl.
  - by intros [= <- <-].
  - repeat case_match; try (by apply IH); intros [= <- <-]; try done.
    split; [|by eexists]. unfold joinPath.
    destruct (endsWithSlash dir); by destruct dir.
Qed.

Lemma removeTree_within t d k : within d k → removeTree t d !! k = None.
Proof.
  intros Hk. unfold removeTree. apply map_lookup_filter_None. right.
  intros n _ Hn. by apply Hn.
Qed.

(** What a run of the build action amounts to. *)
Lemma buildAction_spec c s err s' :
  buildAction c s = (err, s') →
  (is_Some err ∧ s' = s) ∨
  ∃ tempDir,
    tempDir ≠ "" ∧
    appends (buildEvent c (cwd s) tempDir) s s' ∧
    (∀ k, within (resolve (cwd s) tempDir) k → fs s' !! k = None) ∧
    (err = None → ∃ evs, trace s' = trace s ++ evs ∧ built c evs).
Proof.
  unfold buildAction.
  destruct (diskcache_NewDiskCache _); [intros [= <- <-]; left; by eauto|].
  intros (r & s1 & Htemp & Hrun)%bind_state.
  apply mkdirTemp_spec in Htemp. destruct r as [tempDir|e].
  - destruct Htemp as [Hne [t ->]]. right. exists tempDir. split; [done|].
    apply bind_state in Hrun as (berr & s2 & Hbody & Hrun).
    apply bind_state in Hrun as ([] & s3 & Hrm & [-> ->]%ret_state).
    apply buildBody_spec in Hbody as [[Hcw (evs & Ht & Hevs)] Hbuilt].
    injection Hrm as <-. simpl in *. split; [|split].
    + split; [done|]. by exists evs.
    + intros k Hk. rewrite Hcw. by apply removeTree_within.
    + done.
  - subst s1. apply ret_state in Hrun as [-> ->]. left. by eauto.
Qed.

End ActionProps.

(** ** The claims about the build action *)

Section BuildClaims.
Context `{Extern}.



(** C10.  When a platform string of the command line does not parse or
    names an OS other than [linux], the build action returns an error,
    nothing was fetched, resolved, downloaded or unpacked for that
    platform string, and no image was built. *)
Theorem rejected_platform_stops_build c s err s' platformStr :
  buildAction c s = (err, s') →
  platformStr ∈ strings.Split "," (flag_platform c) →
  rejectedPlatform platformStr →
  is_Some err ∧
  ∃ evs,
    trace s' = trace s ++ evs ∧
    ∀ e, e ∈ evs → ¬ concerns platformStr e ∧ ∀ buildOpts, e ≠ EvBuild buildOpts.
Proof.
  intros Hrun Hin Hrej%rejectedPlatform_not_good.
  assert (∀ rx buildOpts, ¬ builtFrom c rx buildOpts) as Hnot.
  { intros rx o (_ & _ & Hgood). rewrite Forall_forall in Hgood. apply Hrej, Hgood, Hin. }
  apply buildAction_spec in Hrun
    as [[? ->]|(tempDir & _ & [_ (evs & Ht & Hevs)] & _ & Hbuilt)].
  - split; [done|]. exists []. rewrite app_nil_r. split; [done|].
    intros e He. by apply elem_of_nil in He.
  - split.
    + destruct err; [done|]. destruct Hbuilt as (? & _ & rx & o & _ & Hfrom & _);
        [done|]. by destruct (Hnot rx o).
    + exists evs. split; [done|]. intros e He. rewrite Forall_forall in Hevs.
      destruct (Hevs _ He) as (rx & Hrx & Hev). split.
      * intros Hc. destruct e; simpl in Hc; try done; subst;
          destruct Hev as (q & _ & Hev); simpl in Hev;
          destruct Hev as (<- & Hev); apply Hrej;
          (exact Hev || exact (proj1 Hev)).
      * intros o ->. by destruct (Hnot rx o).
Qed.



End BuildClaims.

Section RemovalClaim.
Context `{Extern}.

(** A failed attempt does not remove what it has written: either no file
    was created, or the file it created is still there when
    [downloadPackage] returns. *)
Lemma downloadPackage_leaves_file ctx dir pkgURL sha256 s e s' :
  downloadPackage ctx dir pkgURL sha256 s = (Err e, s') →
  s' = s ∨
  ∃ k body, trace s' = trace s ++ [EvCreate k] ∧
            fs s' !! k = Some (File body).
Proof.
  unfold downloadPackage, bindR, bind, wrapping, ret, file_Write.
  destruct (url_Parse pkgURL) as [url|]; simpl; [|intros [= <- <-]; by left].
  destruct (http_NewRequest _); simpl; [intros [= <- <-]; by left|].
  destruct (http_Do _ _) as [resp|]; simpl; [|intros [= <- <-]; by left].
  unfold os_Create.
  destruct (isDir (fs s) (resolve _ _)); simpl; [intros [= <- <-]; by left|].
  destruct (isDir (fs s) (parent _)); simpl; [|intros [= <- <-]; by left].
  intros Hrun. right. eexists _, (Body resp).
  repeat case_match; simplify_eq/=; by rewrite lookup_insert_eq.
Qed.

(** C4.  [downloadPackage] itself leaves the file of a failed attempt
    behind; the build action removes it on its way out: when the action
    returns, with an error or not, no file that a download attempt created
    during the run exists any more, so none can be used by a later run. *)
Theorem partial_downloads_are_removed c s err s' :
  parsesSpecifiers →
  buildAction c s = (err, s') →
  (∀ ctx dir pkgURL sha256 s1 e s2,
     downloadPackage ctx dir pkgURL sha256 s1 = (Err e, s2) →
     s2 = s1 ∨
     ∃ k body, trace s2 = trace s1 ++ [EvCreate k] ∧
               fs s2 !! k = Some (File body)) ∧
  ∃ evs,
    trace s' = trace s ++ evs ∧
    ∀ k, EvCreate k ∈ evs → fs s' !! k = None.
Proof.
  intros Hspec Hrun. split; [intros; by eapply downloadPackage_leaves_file|].
  apply buildAction_spec in Hrun
    as [[_ ->]|(tempDir & Hne & [_ (evs & Ht & Hevs)] & Hgone & _)].
  - exists []. rewrite app_nil_r. split; [done|].
    intros k Hk. by apply elem_of_nil in Hk.
  - exists evs. split; [done|]. intros k Hk. rewrite Forall_forall in Hevs.
    destruct (Hevs _ Hk) as (rx & _ & q & _ & Hev). apply Hgone. by apply Hev.
Qed.

(** C5, as amended.  The exit status is 0 when [app.Run] returns no
    error and 1 when it returns one, whatever the error; a command line
    that is refused makes [app.Run] return an error, so the status is 1
    then. *)
Theorem exit_status_is_zero_or_one args s code s' :
  main args s = (code, s') →
  (code = 0%Z ↔ (app_Run args s).1 = None) ∧
  (code = 1%Z ↔ is_Some (app_Run args s).1) ∧
  (∀ e, cli_parse args = Err e → code = 1%Z).
Proof.
  unfold main, bind. destruct (app_Run args s) as [[e|] s1] eqn:Hrun;
    intros [= <- <-]; simpl.
  - split; [done|]. split; [by split; eauto|]. done.
  - split; [done|]. split; [split; [done|by intros []]|].
    intros e He. unfold app_Run in Hrun. rewrite He in Hrun. done.
Qed.

End RemovalClaim.

(** ** The slim pattern file *)

Section SlimClaim.
Import slimify.

Lemma glob_star pat s :
  glob (String "*" pat) s =
    glob pat s ||
    match s with
    | EmptyString => false
    | String _ s' => glob (String "*" pat) s'
    end.
Proof. by destruct s. Qed.

Lemma glob_star_all s : glob "*" s = true.
Proof.
  induction s as [|c s IH]; [done|]. rewrite glob_star, IH. apply orb_true_r.
Qed.

Lemma glob_star_skip pat s1 s2 :
  glob pat s2 = true → glob (String "*" pat) (s1 +:+ s2) = true.
Proof.
  intros Hm. induction s1 as [|c s1 IH].
  - change ("" +:+ s2) with s2. rewrite glob_star, Hm. done.
  - change (String c s1 +:+ s2) with (String c (s1 +:+ s2)).
    rewrite glob_star, IH. apply orb_true_r.
Qed.

Lemma glob_literal lit pat s :
  literal lit = true → glob (lit +:+ pat) (lit +:+ s) = glob pat s.
Proof.
  induction lit as [|c lit IH]; [done|]. simpl.
  intros [[Hs Hq]%andb_true_iff Hlit]%andb_true_iff.
  change (String c lit +:+ ?x) with (String c (lit +:+ x)). simpl.
  apply negb_true_iff in Hs, Hq. rewrite Hs, Hq, Ascii.eqb_refl. simpl.
  by apply IH.
Qed.

Lemma matchesAny_true pats path :
  matchesAny pats path = true ↔ ∃ pat, pat ∈ pats ∧ glob pat path = true.
Proof.
  unfold matchesAny. rewrite existsb_exists.
  split; intros (pat & Hin & Hm); exists pat; by rewrite ?list_elem_of_In in *.
Qed.

Lemma deletes_parse file pat :
  pat ∈ deletes (parse file) ↔
  pat ∈ strings.Split newline file ∧
  ∃ c rest, pat = String c rest ∧ c ≠ "#"%char ∧ c ≠ "!"%char.
Proof.
  unfold deletes, parse. rewrite list_elem_of_omap. split.
  - intros (p & (line & Hline & Hp)%list_elem_of_omap & Hpat).
    destruct p as [pat'|]; [|done]. injection Hpat as ->.
    destruct line as [|c rest]; [done|]. simpl in Hp.
    destruct (Ascii.eqb c "#") eqn:Hh; [done|].
    destruct (Ascii.eqb c "!") eqn:Hb; [done|]. injection Hp as <-.
    split; [done|]. exists c, rest. apply Ascii.eqb_neq in Hh, Hb. done.
  - intros (Hline & c & rest & -> & Hh & Hb). exists (Delete (String c rest)).
    split; [|done]. apply list_elem_of_omap. exists (String c rest).
    split; [done|]. simpl. apply Ascii.eqb_neq in Hh, Hb. by rewrite Hh, Hb.
Qed.

Lemma preserves_parse file pat :
  pat ∈ preserves (parse file) ↔ String "!" pat ∈ strings.Split newline file.
Proof.
  unfold preserves, parse. rewrite list_elem_of_omap. split.
  - intros (p & (line & Hline & Hp)%list_elem_of_omap & Hpat).
    destruct p as [|pat']; [done|]. injection Hpat as ->.
    destruct line as [|c rest]; [done|]. simpl in Hp.
    destruct (Ascii.eqb c "#") eqn:Hh; [done|].
    destruct (Ascii.eqb c "!") eqn:Hb; [|done]. injection Hp as <-.
    apply Ascii.eqb_eq in Hb as ->. done.
  - intros Hline. exists (Preserve pat). split; [|done].
    apply list_elem_of_omap. by exists (String "!" pat).
Qed.

(** C7.  In the pattern file a line that begins with [!] is a
    preserve-pattern, an empty line or one that begins with [#] is
    nothing, any other line a delete pattern; a path is removed iff it
    matches a delete pattern and no preserve pattern.  With the patterns
    that are shipped, the copyright file of any package matches the delete
    pattern [/usr/share/doc/*] and the preserve-pattern
    [/usr/share/doc/*/copyright], and is kept. *)
Theorem slim_removes_deleted_unless_preserved :
  (∀ file pat,
     (pat ∈ deletes (parse file) ↔
        pat ∈ strings.Split newline file ∧
        ∃ c rest, pat = String c rest ∧ c ≠ "#"%char ∧ c ≠ "!"%char) ∧
     (pat ∈ preserves (parse file) ↔
        String "!" pat ∈ strings.Split newline file)) ∧
  (∀ file path,
     removed (parse file) path = true ↔
       (∃ pat, pat ∈ deletes (parse file) ∧ glob pat path = true) ∧
       ¬ (∃ pat, pat ∈ preserves (parse file) ∧ glob pat path = true)) ∧
  (∀ pkg,
     let path := "/usr/share/doc/" +:+ pkg +:+ "/copyright" in
     "/usr/share/doc/*" ∈ deletes (parse slimifyFile) ∧
     glob "/usr/share/doc/*" path = true ∧
     "/usr/share/doc/*/copyright" ∈ preserves (parse slimifyFile) ∧
     glob "/usr/share/doc/*/copyright" path = true ∧
     removed (parse slimifyFile) path = false).
Proof.
  split; [intros; split; [apply deletes_parse|apply preserves_parse]|].
  split.
  - intros file path. unfold removed.
    rewrite andb_true_iff, negb_true_iff, <-not_true_iff_false.
    by rewrite !matchesAny_true.
  - intros pkg path.
    assert (glob "/usr/share/doc/*" path = true) as Hdel.
    { change "/usr/share/doc/*" with ("/usr/share/doc/" +:+ "*").
      unfold path. rewrite glob_literal by done. apply glob_star_all. }
    assert (glob "/usr/share/doc/*/copyright" path = true) as Hpre.
    { change "/usr/share/doc/*/copyright"
        with ("/usr/share/doc/" +:+ "*/copyright").
      unfold path. rewrite glob_literal by done.
      by apply glob_star_skip. }
    assert ("/usr/share/doc/*/copyright" ∈ preserves (parse slimifyFile))
      as Hin by (vm_compute; by left).
    split; [vm_compute; by left|]. split; [done|].
    split; [done|]. split; [done|].
    unfold removed. apply andb_false_iff. right. apply negb_false_iff.
    apply matchesAny_true. by eexists.
Qed.

End SlimClaim.

(** ** The build in the small world *)

Section BuildExamples.
#[local] Existing Instance Toy.world.

(** The platforms of the small world are made of specifier characters. *)
Lemma Toy_parsesSpecifiers : parsesSpecifiers.
Proof.
  intros platformStr platform. simpl.
  repeat case_decide; intros [= <-]; done.
Qed.


(** A build for [linux/amd64,windows/amd64]: the first platform is gone
    through, the second is refused and nothing is done for it. *)
Lemma rejected_platform_stops_build_witness :
  ∃ evs,
    trace (buildAction (Toy.context "linux/amd64,windows/amd64" false)
             Toy.init).2 = evs ∧
    ∀ e, e ∈ evs → ¬ concerns "windows/amd64" e.
Proof.
  destruct (rejected_platform_stops_build
    (Toy.context "linux/amd64,windows/amd64" false) Toy.init
    (Some (errorString "unsupported OS: windows"))
    (buildAction (Toy.context "linux/amd64,windows/amd64" false) Toy.init).2
    "windows/amd64") as (_ & evs & Ht & Hevs).
  - vm_compute. reflexivity.
  - vm_compute. right. by left.
  - vm_compute. discriminate.
  - exists evs. split; [exact Ht|]. intros e He. by apply Hevs.
Defined.



(** A build in which the first mirror fails the check: the file that
    attempt wrote was created in the temporary directory and is gone when
    the action has returned. *)
Lemma partial_downloads_are_removed_witness :
  ∃ evs,
    trace (buildAction (Toy.context "linux/amd64" false) Toy.init).2 = evs ∧
    EvCreate ["tmp"; "immutos-1"; "linux-amd64"; "base-files_12.4_amd64.deb"]
      ∈ evs ∧
    ∀ k, EvCreate k ∈ evs →
         fs (buildAction (Toy.context "linux/amd64" false) Toy.init).2 !! k
         = None.
Proof.
  destruct (partial_downloads_are_removed (Toy.context "linux/amd64" false)
    Toy.init None (buildAction (Toy.context "linux/amd64" false) Toy.init).2
    Toy_parsesSpecifiers) as (_ & evs & Ht & Hgone); [vm_compute; reflexivity|].
  exists evs. split; [exact Ht|]. split; [|exact Hgone].
  assert (trace (buildAction (Toy.context "linux/amd64" false) Toy.init).2
          = evs) as <- by exact Ht.
  vm_compute. do 3 right. by left.
Defined.

(** A build that succeeds. *)
Lemma exit_status_is_zero_or_one_witness :
  (main ["immutos"; "build"; "-f"; "recipe.yaml"] Toy.init).1 = 0%Z ↔
  (app_Run ["immutos"; "build"; "-f"; "recipe.yaml"] Toy.init).1 = None.
Proof.
  refine (proj1 (exit_status_is_zero_or_one
    ["immutos"; "build"; "-f"; "recipe.yaml"] Toy.init _
    (main ["immutos"; "build"; "-f"; "recipe.yaml"] Toy.init).2 _)).
  vm_compute. reflexivity.
Defined.

(** C5, as stated, fails: the build command without its required flag is
    an invalid command line, the parser refuses it with an error, and the
    exit status is 1, not 2. *)
Lemma exit_status_two_counterexample :
  (∃ e, cli_parse ["immutos"; "build"] = Err e) ∧
  (main ["immutos"; "build"] Toy.init).1 = 1%Z ∧
  (main ["immutos"; "build"] Toy.init).1 ≠ 2%Z.
Proof.
  split; [by eexists|]. split; [vm_compute; reflexivity|].
  vm_compute. discriminate.
Defined.

End BuildExamples.

(** * More about the build command *)

(** ** One download *)

Section OneDownload.
Context `{Extern}.


(** X2.  [downloadPackage] accepts a URL exactly when the URL parses,
    the request can be made and is answered, the file can be created (its
    name is not a directory and lies in one), the body is read to its end
    and the check of the digest succeeds; the path is then the download
    directory joined with the base name of the URL's path. *)
Theorem downloadPackage_accepts_iff ctx dir pkgURL sha256 s path :
  (∃ s', downloadPackage ctx dir pkgURL sha256 s = (Ok path, s')) ↔
  ∃ url resp,
    url_Parse pkgURL = Ok url ∧
    http_NewRequest (url_String url) = None ∧
    http_Do ctx (url_String url) = Ok resp ∧
    path = filepath.Join [dir; filepath.Base (url_Path url)] ∧
    isDir (fs s) (resolve (cwd s) path) = false ∧
    isDir (fs s) (parent (resolve (cwd s) path)) = true ∧
    BodyErr resp = None ∧
    hashreader_Verify (Body resp) sha256 = None.
Proof.
  unfold downloadPackage, bindR, bind, wrapping, ret, file_Write, os_Create.
  split.
  - intros [s' Hrun].
    destruct (url_Parse pkgURL) as [url|]; simpl in Hrun; [|done].
    destruct (http_NewRequest _) eqn:Hreq; simpl in Hrun; [done|].
    destruct (http_Do _ _) as [resp|] eqn:Hdo; simpl in Hrun; [|done].
    destruct (isDir (fs s) (resolve _ _)) eqn:Hd; simpl in Hrun; [done|].
    destruct (isDir (fs s) (parent _)) eqn:Hp; simpl in Hrun; [|done].
    destruct (BodyErr resp) eqn:Hb; simpl in Hrun; [done|].
    destruct (hashreader_Verify _ _) eqn:Hv; simpl in Hrun; [done|].
    injection Hrun as <- <-. by exists url, resp.
  - intros (url & resp & Hu & Hr & Hd & -> & Hdir & Hpar & Hb & Hv).
    rewrite Hu. simpl. rewrite Hr. simpl. rewrite Hd. simpl.
    rewrite Hdir. simpl. rewrite Hpar. simpl. rewrite Hb. simpl.
    rewrite Hv. simpl. by eexists.
Qed.


End OneDownload.

(** ** The group of downloads *)

Section GroupOfDownloads.
Context `{Extern}.

Lemma downloadWorker_Err ctx tempDir pkg s e path s' :
  downloadWorker ctx tempDir pkg s = (Some e, path, s') →
  path = None ∧
  ∃ es j,
    allFail ctx tempDir (SHA256 pkg) (util_Shuffle (URLs pkg)) s es s' ∧
    es ≠ [] ∧
    e = wrapError "failed to download package" j ∧ causes j = es.
Proof.
  unfold downloadWorker, bind, ret.
  destruct (tryURLs _ _ _ _ _ s) as [[errs path'] s1] eqn:Hloop.
  intros [= Herr <- <-].
  apply tryURLs_spec in Hloop as [(-> & es & Hall & ->)|(-> & _)]; [|done].
  split; [done|]. destruct (joinAll None es) as [j|] eqn:Hj; [|done].
  injection Herr as <-. exists es, j. split; [done|]. split.
  - intros ->. done.
  - split; [done|]. change (causes j) with (causesOf (Some j)).
    rewrite <-Hj, causesOf_joinAll. simpl. by eapply allFail_causes.
Qed.

Lemma downloadWorker_None ctx tempDir pkg s path s' :
  downloadWorker ctx tempDir pkg s = (None, path, s') →
  (path = None ∧ util_Shuffle (URLs pkg) = [] ∧ s' = s) ∨
  ∃ p pkgURL s1 s2,
    path = Some p ∧ pkgURL ∈ util_Shuffle (URLs pkg) ∧
    downloadPackage ctx tempDir pkgURL (SHA256 pkg) s1 = (Ok p, s2).
Proof.
  intros Hw. destruct path as [p|].
  - right. revert Hw. unfold downloadWorker, bind, ret.
    destruct (tryURLs _ _ _ _ _ s) as [[errs path'] s1] eqn:Hloop.
    intros [= _ -> <-].
    apply tryURLs_spec in Hloop as [(? & _)|(_ & Hok)]; [done|].
    destruct Hok
      as (p' & urls1 & u & urls2 & es & s2 & [= <-] & Hurls & _ & Hok).
    exists p, u, s2, s1. split; [done|]. split; [|done].
    rewrite Hurls. apply elem_of_app. right. by left.
  - left. split; [done|]. revert Hw. unfold downloadWorker, bind, ret.
    destruct (tryURLs _ _ _ _ _ s) as [[errs path'] s1] eqn:Hloop.
    intros [= Herr -> <-].
    apply tryURLs_spec in Hloop as [(_ & es & Hall & ->)|(_ & Hok)].
    + destruct es as [|e es].
      * by apply allFail_nil_inv in Hall.
      * destruct (joinAll_is_Some None (e :: es)) as [j Hj]; [by right|].
        by rewrite Hj in Herr.
    + by destruct Hok as (? & ? & ? & ? & ? & ? & ? & _).
Qed.

(** Once the group has an error, it keeps it. *)
Lemma downloadGroup_keeps_error ctx tempDir pkgs packagePaths e s paths err s' :
  downloadGroup ctx tempDir pkgs packagePaths (Some e) s = (paths, err, s') →
  err = Some e.
Proof.
  revert packagePaths s.
  induction pkgs as [|pkg pkgs IH]; intros packagePaths s; simpl.
  - by intros [= _ <- _].
  - unfold bind. destruct (downloadWorker _ tempDir pkg s) as [[e' path] s1].
    apply IH.
Qed.

Lemma downloadGroup_None ctx tempDir pkgs packagePaths s paths s' :
  (∀ l, util_Shuffle l ≡ₚ l) →
  downloadGroup ctx tempDir pkgs packagePaths None s = (paths, None, s') →
  ∃ accepted,
    paths = packagePaths ++ accepted ∧
    Forall2 (λ pkg p, ∃ pkgURL s1 s2, pkgURL ∈ URLs pkg ∧
                downloadPackage ctx tempDir pkgURL (SHA256 pkg) s1
                = (Ok p, s2))
      (filter (λ pkg, URLs pkg ≠ []) pkgs) accepted.
Proof.
  intros Hperm. revert packagePaths s.
  induction pkgs as [|pkg pkgs IH]; intros packagePaths s; simpl.
  - intros [= <- <-]. exists []. by rewrite app_nil_r.
  - unfold bind. rewrite orb_false_r.
    destruct (downloadWorker ctx tempDir pkg s) as [[e path] s1] eqn:Hw.
    destruct e as [e|]; [by intros ?%downloadGroup_keeps_error|].
    intros (accepted & -> & Hacc)%IH.
    apply downloadWorker_None in Hw
      as [(-> & Hnil & _)|(p & u & s2 & s3 & -> & Hu & Hv)].
    + exists accepted. rewrite app_nil_r. split; [done|].
      rewrite filter_cons_False; [done|]. intros Hne. apply Hne.
      apply Permutation_nil_r. by rewrite <-(Hperm (URLs pkg)), Hnil.
    + exists (p :: accepted). simpl. rewrite <-app_assoc. split; [done|].
      rewrite Hperm in Hu. rewrite filter_cons_True.
      * constructor; [by exists u, s2, s3|done].
      * intros Hnil. rewrite Hnil in Hu. by apply elem_of_nil in Hu.
Qed.

Lemma downloadGroup_Some ctx tempDir pkgs packagePaths s paths e s' :
  downloadGroup ctx tempDir pkgs packagePaths None s = (paths, Some e, s') →
  ∃ pkg path s1 s2,
    pkg ∈ pkgs ∧ downloadWorker ctx tempDir pkg s1 = (Some e, path, s2).
Proof.
  revert packagePaths s.
  induction pkgs as [|pkg pkgs IH]; intros packagePaths s; simpl; [done|].
  unfold bind. rewrite orb_false_r.
  destruct (downloadWorker ctx tempDir pkg s) as [[e' path] s1] eqn:Hw.
  destruct e' as [e'|].
  - intros [= ->]%downloadGroup_keeps_error. exists pkg, path, s, s1.
    split; [by left|done].
  - intros (pkg' & path' & s2 & s3 & Hin & Hw')%IH.
    exists pkg', path', s2, s3. split; [by right|done].
Qed.

(** X4.  When the downloader succeeds, every selected package that has a
    URL was downloaded: the list returned is, up to its order, one path
    for each such package, in the order of the packages, and that path is
    what [downloadPackage] returned for one of the package's URLs and the
    package's digest; a package without any URL is passed over without an
    error. *)
Theorem downloader_success_covers_every_package
  ctx tempDir selectedDB s paths s' :
  (∀ l, util_Shuffle l ≡ₚ l) →
  downloadSelectedPackages ctx tempDir selectedDB s = (Ok paths, s') →
  ∃ accepted,
    paths ≡ₚ accepted ∧
    Forall2 (λ pkg p, ∃ pkgURL s1 s2, pkgURL ∈ URLs pkg ∧
                downloadPackage ctx tempDir pkgURL (SHA256 pkg) s1
                = (Ok p, s2))
      (filter (λ pkg, URLs pkg ≠ []) (db_ForEach selectedDB)) accepted.
Proof.
  intros Hperm. unfold downloadSelectedPackages, bind, ret.
  destruct (downloadGroup _ _ _ _ _ s) as [[packagePaths err] s1] eqn:Hg.
  destruct err; intros [= <- <-].
  apply downloadGroup_None in Hg as (accepted & -> & Hacc); [|done].
  exists accepted. split; [|done]. simpl. unfold slices_Sort.
  apply merge_sort_Permutation.
Qed.

(** X5.  When the downloader fails, some selected package had every one
    of its URLs fail, at least one, and the error is that package's:
    [failed to download packages] wrapping [failed to download package]
    wrapping the join of the errors of its attempts. *)
Theorem downloader_failure_is_a_package_failure
  ctx tempDir selectedDB s e s' :
  downloadSelectedPackages ctx tempDir selectedDB s = (Err e, s') →
  ∃ pkg es j s1 s2,
    pkg ∈ db_ForEach selectedDB ∧
    allFail ctx tempDir (SHA256 pkg) (util_Shuffle (URLs pkg)) s1 es s2 ∧
    es ≠ [] ∧ causes j = es ∧
    e = wrapError "failed to download packages"
          (wrapError "failed to download package" j).
Proof.
  unfold downloadSelectedPackages, bind, ret.
  destruct (downloadGroup _ _ _ _ _ s) as [[packagePaths err] s1] eqn:Hg.
  destruct err as [e0|]; intros [= <- <-].
  apply downloadGroup_Some in Hg as (pkg & path & s2 & s3 & Hin & Hw).
  apply downloadWorker_Err in Hw as (_ & es & j & Hall & Hne & -> & Hj).
  by exists pkg, es, j, s2, s3.
Qed.

End GroupOfDownloads.

(** ** The package database *)

Section LoadMore.
Context `{Extern}.

Lemma collectComponents_iff platform sourceConfs components cs :
  collectComponents platform sourceConfs components = Ok cs ↔
  Forall (λ sc, isOk (sourceComponents platform sc)) sourceConfs ∧
  cs = components ++ (sourceConfs ≫= componentsOf platform).
Proof.
  revert components. induction sourceConfs as [|sc rest IH]; intros components.
  - simpl. rewrite app_nil_r. split; [by intros [= <-]|by intros [_ ->]].
  - cbn [collectComponents]. rewrite bind_cons, Forall_cons.
    unfold componentsOf at 1.
    destruct (sourceComponents platform sc) as [cs'|e]; simpl.
    + rewrite IH, <-app_assoc. tauto.
    + split; [done|]. by intros [[[] _] _].
Qed.




End LoadMore.

(** ** The options and the order of the build *)

Section OrderOfTheBuild.
Context `{Extern}.

Lemma appends_none s s' :
  appends (λ _, False) s s' → cwd s' = cwd s ∧ trace s' = trace s.
Proof.
  intros [Hc (evs & Ht & Hevs)]. split; [done|].
  destruct Hevs; [by rewrite app_nil_r in Ht|done].
Qed.













End OrderOfTheBuild.

(** ** The ways out of the build action *)

Section WaysOut.
Context `{Extern}.

Lemma mkdirTemp_fresh dir rands s name s' :
  mkdirTemp dir rands s = (Ok name, s') →
  exists_ (fs s) (resolve (cwd s) name) = false ∧
  s' = setFS s (<[resolve (cwd s) name := Dir]> (fs s)).
Proof.
  revert s. induction rands as [|x rands IH]; intros s; simpl; [done|].
  destruct (exists_ (fs s) (resolve (cwd s) (joinPath dir "immutos-" +:+ x)))
    eqn:Hex; [apply IH|].
  destruct (isDir (fs s) (parent _)); [|done].
  intros [= <- <-]. done.
Qed.

(** Up to the loop nothing is recorded; the rest is the loop. *)
Lemma buildOptions_loop c tempDir s r s' :
  buildOptions c tempDir s = (r, s') →
  (trace s' = trace s ∧ ¬ isOk r) ∨
  ∃ rx opts0 s0,
    cwd s0 = cwd s ∧ trace s0 = trace s ∧
    buildPlatforms c rx tempDir opts0
      (strings.Split "," (flag_platform c)) s0 = (r, s').
Proof.
  unfold buildOptions. intros Hrun.
  apply bindR_state in Hrun as [(e & Hmk & ->)|([] & s1 & Hmk & Hrun)];
    apply wrapping_state in Hmk as [r0 Hmk];
    apply bind_state in Hmk as (err & s2 & Hmk & [_ ->]%ret_state);
    apply (os_MkdirAll_appends (λ _, False)), appends_none in Hmk as [Hc Ht];
    [left; split; [done|by intros []]|].
  apply bindR_state in Hrun as [(e & [-> _]%wrapping_ret & ->)|Hrun];
    [left; split; [done|by intros []]|].
  destruct Hrun as ([] & s1 & [-> _]%wrapping_ret & Hrun).
  apply bindR_state in Hrun as [(e & [-> _]%wrapping_ret & ->)|Hrun];
    [left; split; [done|by intros []]|].
  destruct Hrun as (rx & s1 & [-> _]%wrapping_ret & Hrun).
  apply bindR_state in Hrun as [(e & [-> _]%wrapping_ret & ->)|Hrun];
    [left; split; [done|by intros []]|].
  destruct Hrun as ([] & s1 & [-> _]%wrapping_ret & Hrun).
  apply bindR_state in Hrun as [(e & Hexe & ->)|(p & s1 & Hexe & Hrun)].
  - left. split; [|by intros []]. destruct (flag_dev c).
    + by apply wrapping_ret in Hexe as [-> _].
    + by apply ret_state in Hexe as [_ ->].
  - right. assert (s1 = s2) as ->.
    { destruct (flag_dev c).
      + by apply wrapping_ret in Hexe as [-> _].
      + by apply ret_state in Hexe as [_ ->]. }
    by eexists rx, _, s2.
Qed.

Lemma buildAction_reduces c s err s' :
  buildAction c s = (err, s') →
  (s' = s ∧ is_Some err) ∨
  ∃ tempDir s1 r s2,
    os_MkdirTemp s = (Ok tempDir, s1) ∧
    buildOptions c tempDir s1 = (r, s2) ∧
    match r with
    | Err e => err = Some e ∧ trace s' = trace s2
    | Ok o => trace s' = trace s2 ++ [EvBuild o]
    end.
Proof.
  unfold buildAction.
  destruct (diskcache_NewDiskCache _); [intros [= <- <-]; left; by eauto|].
  intros (r & s1 & Htemp & Hrun)%bind_state.
  pose proof (mkdirTemp_spec _ _ _ _ _ Htemp) as Hspec.
  destruct r as [tempDir|e].
  2: { subst s1. apply ret_state in Hrun as [-> ->]. left. by eauto. }
  right. apply bind_state in Hrun as (berr & s2 & Hbody & Hrun).
  apply bind_state in Hrun as ([] & s3 & Hrm & [-> ->]%ret_state).
  injection Hrm as <-. simpl. unfold buildBody in Hbody.
  apply bind_state in Hbody as (r & s4 & Hopts & Hbody).
  exists tempDir, s1, r, s4. split; [done|]. split; [done|].
  destruct r as [o|e].
  - apply bind_state in Hbody as ([] & s5 & Hemit & Hbody).
    apply bind_state in Hbody as (e & s6 & Hb & [_ ->]%ret_state).
    injection Hemit as <-.
    by apply (liftFS_appends (λ _, False)), appends_none in Hb as [_ ->].
  - by apply ret_state in Hbody as [-> ->].
Qed.

(** The loop stops at the first platform string that is refused. *)
Lemma buildPlatforms_stops c rx tempDir buildOpts l1 p l2 s r s' :
  ¬ goodPlatform p →
  buildPlatforms c rx tempDir buildOpts (l1 ++ p :: l2) s = (r, s') →
  ¬ isOk r ∧
  appends (λ e, ∃ q, q ∈ l1 ∧ platformEvent c rx (cwd s) tempDir q e) s s'.
Proof.
  intros Hbad. revert buildOpts s.
  induction l1 as [|q l1 IH]; intros buildOpts s; cbn [app buildPlatforms].
  - intros [(e & Hp & ->)|(o & s1 & Hp & _)]%bindR_state;
      apply buildPlatform_bad in Hp as [[e' He'] ->]; try done.
    split; [by intros []|apply appends_refl].
  - intros [(e & Hp & ->)|(o & s1 & Hp & Hrest)]%bindR_state;
      apply buildPlatform_appends in Hp.
    + split; [by intros []|]. eapply appends_mono; [|done].
      intros ev Hev. exists q. split; [by left|done].
    + apply IH in Hrest as [Hr Hrest]. split; [done|].
      eapply appends_trans.
      * eapply appends_mono; [|done]. intros ev Hev. exists q.
        split; [by left|done].
      * destruct Hp as [<- _]. eapply appends_mono; [|done].
        intros ev (q' & Hq' & Hev). exists q'. split; [by right|done].
Qed.

(** X11.  The platform strings are gone through in order and the build
    stops at the first one that is refused: it returns an error, the
    image is not built, and whatever was loaded, resolved, downloaded or
    unpacked was for a platform string before the refused one. *)
Theorem build_stops_at_first_refused_platform c s err s' l1 p l2 :
  buildAction c s = (err, s') →
  strings.Split "," (flag_platform c) = l1 ++ p :: l2 →
  rejectedPlatform p →
  is_Some err ∧
  ∃ evs,
    trace s' = trace s ++ evs ∧
    ∀ e, e ∈ evs → isCreate e ∨ ∃ q, q ∈ l1 ∧ concerns q e.
Proof.
  intros Hrun Hsplit Hrej%rejectedPlatform_not_good.
  apply buildAction_reduces in Hrun
    as [[-> ?]|(tempDir & s1 & r & s2 & Htemp & Hopts & Hr)].
  { split; [done|]. exists []. rewrite app_nil_r. split; [done|].
    intros e He. by apply elem_of_nil in He. }
  apply mkdirTemp_spec in Htemp as [_ [t ->]].
  apply buildOptions_loop in Hopts
    as [[Ht Hnot]|(rx & o0 & s0 & Hc & Ht & Hloop)].
  - destruct r as [o|e]; [by destruct Hnot|]. destruct Hr as [-> Hr].
    split; [done|]. exists []. rewrite app_nil_r, Hr, Ht. split; [done|].
    intros e' He. by apply elem_of_nil in He.
  - rewrite Hsplit in Hloop.
    apply buildPlatforms_stops in Hloop as [Hnot [_ (evs & Hevs & Hall)]];
      [|done].
    destruct r as [o|e]; [by destruct Hnot|]. destruct Hr as [-> Hr].
    split; [done|]. exists evs. rewrite Hr, Hevs, Ht. split; [done|].
    intros e' He. rewrite Forall_forall in Hall.
    destruct (Hall _ He) as (q & Hq & Hev).
    destruct e' as [p'|p' seeds|p'|p'|k|o]; simpl in Hev.
    + right. exists q. split; [done|]. by destruct Hev.
    + right. exists q. split; [done|]. by destruct Hev.
    + right. exists q. split; [done|]. by destruct Hev.
    + right. exists q. split; [done|]. by destruct Hev.
    + by left.
    + done.
Qed.

(** X12.  The temporary directory is a new one, and when the action
    returns, with an error or not, the directory and everything within it
    is gone: what the unpacker left there as well as the downloads. *)
Theorem temporary_directory_is_new_and_removed c s err s' tempDir s1 :
  diskcache_NewDiskCache (flag_cache_dir c) = None →
  os_MkdirTemp s = (Ok tempDir, s1) →
  buildAction c s = (err, s') →
  let T := resolve (cwd s) tempDir in
  exists_ (fs s) T = false ∧
  fs s1 !! T = Some Dir ∧
  ∀ k, within T k → fs s' !! k = None.
Proof.
  intros Hcache Htemp Hrun. cbv zeta.
  pose proof (mkdirTemp_fresh _ _ _ _ _ Htemp) as [Hfresh Hs1].
  split; [done|]. split; [rewrite Hs1; simpl; by rewrite lookup_insert_eq|].
  revert Hrun. unfold buildAction. rewrite Hcache.
  intros (r & s1' & Htemp' & Hrun)%bind_state.
  rewrite Htemp in Htemp'. injection Htemp' as <- <-.
  apply bind_state in Hrun as (berr & s2 & Hbody & Hrun).
  apply bind_state in Hrun as ([] & s3 & Hrm & [-> ->]%ret_state).
  apply buildBody_spec in Hbody as [[Hcw _] _].
  injection Hrm as <-. simpl. intros k Hk. rewrite Hcw, Hs1.
  by apply removeTree_within.
Qed.


End WaysOut.

(** ** The platform directory *)

(** X14.  For a platform whose OS is [linux] and whose architecture and
    variant are specifier strings, the directory of the platform is a
    directory directly in the temporary directory, named by the platform
    with dashes for slashes. *)
Theorem platform_directory_is_a_child cw tempDir platform :
  tempDir ≠ "" →
  OS platform = "linux" →
  specifierChars (Architecture platform) = true →
  specifierChars (Variant platform) = true →
  let name := strings.ReplaceAll (platforms_Format platform) "/" "-" in
  isName name ∧ plain name ∧
  resolve cw (platformTempDirOf tempDir platform) = resolve cw tempDir ++ [name].
Proof.
  intros Hne Hos Ha Hv. cbv zeta.
  destruct (platformDir_name platform Hos Ha Hv) as [Hname Hplain].
  split; [done|]. split; [done|]. unfold platformTempDirOf.
  rewrite resolve_Join by done. rewrite elems_name by done.
  by rewrite walk_plain.
Qed.

(** ** Runs in the small worlds *)

Section MoreExamples.
#[local] Existing Instance Toy.world.



(** The downloader on the package of the small world. *)
Lemma downloader_success_covers_every_package_witness :
  ∃ accepted,
    ["scratch/immutos-1/linux-amd64/base-files_12.4_amd64.deb"] ≡ₚ accepted ∧
    Forall2 (λ pkg p, ∃ pkgURL s1 s2, pkgURL ∈ URLs pkg ∧
                downloadPackage false Toy.scratchDir pkgURL (SHA256 pkg) s1
                = (Ok p, s2))
      [Toy.baseFiles] accepted.
Proof.
  refine (downloader_success_covers_every_package (H := Toy.world) false Toy.scratchDir
    [Toy.baseFiles] Toy.initScratch
    ["scratch/immutos-1/linux-amd64/base-files_12.4_amd64.deb"]
    (downloadSelectedPackages false Toy.scratchDir [Toy.baseFiles]
       Toy.initScratch).2 (λ l, reflexivity l) _).
  vm_compute. reflexivity.
Defined.

(** The downloader on the package whose only mirror serves a wrong
    body. *)
Lemma downloader_failure_is_a_package_failure_witness :
  ∃ pkg es j, pkg ∈ [Toy.broken] ∧ es ≠ [] ∧ causes j = es.
Proof.
  destruct (downloader_failure_is_a_package_failure (H := Toy.world) false Toy.scratchDir
    [Toy.broken] Toy.initScratch
    (wrapError "failed to download packages"
       (wrapError "failed to download package"
          (joinError
             [wrapError "failed to verify package"
                (errorString "hash mismatch")])))
    (downloadSelectedPackages (H := Toy.world) false Toy.scratchDir
       [Toy.broken] Toy.initScratch).2)
    as (pkg & es & j & _ & _ & Hin & _ & Hne & Hj & _);
    [vm_compute; reflexivity|].
  by exists pkg, es, j.
Defined.




(** A build for three platform strings, the second of them refused: what
    was done was done for the first. *)
Lemma build_stops_at_first_refused_platform_witness :
  ∃ evs,
    trace (buildAction
             (Toy.context "linux/amd64,windows/amd64,linux/arm64" false)
             Toy.init).2 = evs ∧
    ∀ e, e ∈ evs → isCreate e ∨ ∃ q, q ∈ ["linux/amd64"] ∧ concerns q e.
Proof.
  destruct (build_stops_at_first_refused_platform (H := Toy.world)
    (Toy.context "linux/amd64,windows/amd64,linux/arm64" false) Toy.init
    (Some (errorString "unsupported OS: windows"))
    (buildAction (Toy.context "linux/amd64,windows/amd64,linux/arm64" false)
       Toy.init).2
    ["linux/amd64"] "windows/amd64" ["linux/arm64"])
    as (_ & evs & Ht & Hevs).
  - vm_compute. reflexivity.
  - vm_compute. reflexivity.
  - vm_compute. discriminate.
  - exists evs. split; [exact Ht|exact Hevs].
Defined.

(** The temporary directory of a build in the small world. *)
Lemma temporary_directory_is_new_and_removed_witness :
  exists_ (fs Toy.init) ["tmp"; "immutos-1"] = false ∧
  (os_MkdirTemp Toy.init).1 = Ok "/tmp/immutos-1" ∧
  ∀ k, within ["tmp"; "immutos-1"] k →
       fs (buildAction (Toy.context "linux/amd64" false) Toy.init).2 !! k
       = None.
Proof.
  destruct (temporary_directory_is_new_and_removed (H := Toy.world)
    (Toy.context "linux/amd64" false) Toy.init None
    (buildAction (Toy.context "linux/amd64" false) Toy.init).2
    "/tmp/immutos-1" (os_MkdirTemp Toy.init).2) as (Hnew & _ & Hgone).
  - reflexivity.
  - vm_compute. reflexivity.
  - vm_compute. reflexivity.
  - split; [exact Hnew|]. split; [vm_compute; reflexivity|exact Hgone].
Defined.

(** The directory of [linux/amd64] in the temporary directory. *)
Lemma platform_directory_is_a_child_witness :
  resolve ["home"; "user"]
    (platformTempDirOf "/tmp/immutos-1"
       {| OS := "linux"; Architecture := "amd64"; Variant := "" |})
  = ["tmp"; "immutos-1"; "linux-amd64"].
Proof.
  refine (proj2 (proj2 (platform_directory_is_a_child ["home"; "user"]
    "/tmp/immutos-1"
    {| OS := "linux"; Architecture := "amd64"; Variant := "" |} _ _ _ _)));
    [discriminate|reflexivity..].
Defined.

End MoreExamples.

Section MoreExamples2.
#[local] Existing Instance Toy2.world.



End MoreExamples2.

(** ** The errors of [loadPackageDB] *)

Section LoadErrors.
Context `{Extern}.

Lemma sourceComponents_Err platform sourceConf e :
  sourceComponents platform sourceConf = Err e →
  ∃ msg cause,
    e = wrapError msg cause ∧
    msg ∈ ["failed to create source"; "failed to parse target architecture";
           "failed to get components"].
Proof.
  unfold sourceComponents.
  destruct (source_NewSource sourceConf) as [src|e0].
  2: { intros [= <-]. eexists _, _. split; [done|]. by left. }
  destruct (arch_Parse _) as [a|e0].
  2: { intros [= <-]. eexists _, _. split; [done|]. right. by left. }
  destruct (source_Components src a) as [cs|e0]; [done|].
  intros [= <-]. eexists _, _. split; [done|]. do 2 right. by left.
Qed.

Lemma collectComponents_Err platform sourceConfs components e :
  collectComponents platform sourceConfs components = Err e →
  ∃ sourceConf,
    sourceConf ∈ sourceConfs ∧ sourceComponents platform sourceConf = Err e.
Proof.
  revert components.
  induction sourceConfs as [|sc rest IH]; intros components; [done|].
  cbn [collectComponents].
  destruct (sourceComponents platform sc) as [cs|e0] eqn:Hsc.
  - intros (sc' & Hin & Hsc')%IH. exists sc'. split; [by right|done].
  - intros [= <-]. exists sc. split; [by left|done].
Qed.

Lemma collectPackages_Err components packageDB sourceDateEpoch e :
  collectPackages components packageDB sourceDateEpoch = Err e →
  ∃ component cause,
    component ∈ components ∧ component_Packages component = Err cause ∧
    e = wrapError "failed to get packages" cause.
Proof.
  revert packageDB sourceDateEpoch.
  induction components as [|component rest IH];
    intros packageDB sourceDateEpoch; [done|].
  cbn [collectPackages].
  destruct (component_Packages component) as [[pkgs lastUpdated]|e0] eqn:Hc.
  - intros (c' & cause & Hin & Hc' & ->)%IH. exists c', cause.
    split; [by right|done].
  - intros [= <-]. exists component, e0. split; [by left|done].
Qed.

(** X15.  An error of [loadPackageDB] names what failed.  Either a source
    failed: the error is [failed to get components] wrapping that source's
    error, which says whether the source could not be made, the
    architecture not be parsed or the components not be had.  Or every
    source gave its components and a component failed to give its
    packages: the error then wraps that component's error in [failed to
    get packages] twice. *)
Theorem loadPackageDB_error_names_the_step rx platform e :
  loadPackageDB rx platform = Err e →
  (∃ sourceConf msg cause,
     sourceConf ∈ Sources rx ∧
     sourceComponents platform sourceConf = Err (wrapError msg cause) ∧
     msg ∈ ["failed to create source"; "failed to parse target architecture";
            "failed to get components"] ∧
     e = wrapError "failed to get components" (wrapError msg cause)) ∨
  (Forall (λ sc, isOk (sourceComponents platform sc)) (Sources rx) ∧
   ∃ component cause,
     component ∈ Sources rx ≫= componentsOf platform ∧
     component_Packages component = Err cause ∧
     e = wrapError "failed to get packages"
           (wrapError "failed to get packages" cause)).
Proof.
  unfold loadPackageDB.
  destruct (collectComponents platform (Sources rx) []) as [cs|e0] eqn:Hcs.
  - destruct (collectPackages cs _ _) as [r|e1] eqn:Hps; [done|].
    intros [= <-]. right.
    apply collectComponents_iff in Hcs as [Hall ->]. split; [done|].
    apply collectPackages_Err in Hps as (component & cause & Hin & Hc & ->).
    by exists component, cause.
  - intros [= <-]. left.
    apply collectComponents_Err in Hcs as (sc & Hin & Hsc).
    destruct (sourceComponents_Err _ _ _ Hsc) as (msg & cause & -> & Hmsg).
    by exists sc, msg, cause.
Qed.

End LoadErrors.

Section LoadErrorsExample.

(** A source without a name cannot be made. *)
Lemma loadPackageDB_error_names_the_step_witness :
  ∃ sourceConf msg cause,
    sourceConf ∈ ["debian"; ""] ∧
    msg = "failed to create source" ∧
    sourceComponents (H := Toy2.world)
      {| OS := "linux"; Architecture := "amd64"; Variant := "" |} sourceConf
    = Err (wrapError msg cause).
Proof.
  destruct (loadPackageDB_error_names_the_step (H := Toy2.world)
    (Toy2.recipe ["debian"; ""])
    {| OS := "linux"; Architecture := "amd64"; Variant := "" |}
    (wrapError "failed to get components"
       (wrapError "failed to create source" (errorString "no source URL"))))
    as [(sc & msg & cause & Hin & Hsc & _ & He)|(_ & c & cause & _ & _ & He)];
    [vm_compute; reflexivity| |discriminate He].
  injection He as <- <-. exists sc, "failed to create source", (errorString "no source URL").
  split; [exact Hin|]. split; [reflexivity|exact Hsc].
Defined.

End LoadErrorsExample.
